(** * XHS_RS_TOOLS: login and signature capture orchestrator (xhs_playwright)

    A shallow embedding of the Python package [scripts/xhs_playwright]:
    - [signature.py]: [SignatureCapture.create_request_handler.handle_request]
      and [save_all_signatures];
    - [storage.py]: [save_credentials] and [save_signature] over an
      in-memory model of the two MongoDB collections;
    - [browser.py]: [wait_for_login_complete] and [traverse_feed_channels];
    - [qr_code.py]: [base64_to_ascii] and [extract_from_page].

    Browser, MongoDB, JSON and image-decoding collaborators are modelled as
    explicit environments (records of functions) that the embedded code
    consults; Python exceptions are the [PRaise] case of [py_result]. *)

From Stdlib Require Import String Ascii List Bool Arith Lia ZArith.
From stdpp Require Import base gmap strings list.

Open Scope string_scope.
(* stdpp makes [String.append] opaque to [simpl]; the proofs compute with it. *)
#[local] Arguments String.append : simpl nomatch.
Import ListNotations.

(* ================================================================== *)
(** ** Python string primitives used by the code *)

(** [pat in s] for Python strings. *)
Fixpoint py_in (pat s : string) : bool :=
  String.prefix pat s ||
  match s with
  | EmptyString => false
  | String _ r => py_in pat r
  end.

(** [s.split(c)] for a one-character separator. *)
Fixpoint py_split (c : ascii) (s : string) : list string :=
  match s with
  | EmptyString => [""]
  | String a r =>
      let parts := py_split c r in
      if Ascii.eqb a c then "" :: parts
      else match parts with
           | p :: ps => String a p :: ps
           | [] => [String a ""]
           end
  end.

(** [s.endswith(suf)]. *)
Definition py_endswith (suf s : string) : bool :=
  Nat.leb (String.length suf) (String.length s) &&
  String.eqb (substring (String.length s - String.length suf)
                        (String.length suf) s) suf.

(** [s.startswith(pre)]. *)
Definition py_startswith (pre s : string) : bool := String.prefix pre s.

(** [s[:-n]]: all but the last [n] characters. *)
Definition py_drop_last (n : nat) (s : string) : string :=
  substring 0 (String.length s - n) s.

(** Python truthiness of an optional string ([None] and [""] are falsy). *)
Definition py_truthy_str (o : option string) : bool :=
  match o with
  | None | Some "" => false
  | Some _ => true
  end.

(* ================================================================== *)
(** ** config.py *)

(** [ENDPOINT_PATTERNS] (a dict: iteration in insertion order). *)
Definition ENDPOINT_PATTERNS : list (string * string) :=
  [ ("user_me", "/api/sns/web/v2/user/me");
    ("search_trending", "/api/sns/web/v1/search/querytrending");
    ("home_feed", "/api/sns/web/v1/homefeed");
    ("notification_mentions", "/api/sns/web/v1/you/mentions");
    ("notification_connections", "/api/sns/web/v1/you/connections");
    ("note_page", "/api/sns/web/v2/comment/page") ].

(** [CHANNEL_MAP]: tab name -> API category id. *)
Definition CHANNEL_MAP : list (string * string) :=
  [ ("推荐", "homefeed_recommend");
    ("穿搭", "homefeed.fashion_v3");
    ("美食", "homefeed.food_v3");
    ("彩妆", "homefeed.cosmetics_v3");
    ("影视", "homefeed.movie_and_tv_v3");
    ("职场", "homefeed.career_v3");
    ("情感", "homefeed.love_v3");
    ("家居", "homefeed.household_product_v3");
    ("游戏", "homefeed.gaming_v3");
    ("旅行", "homefeed.travel_v3");
    ("健身", "homefeed.fitness_v3") ].

(** [FEED_CHANNELS]. *)
Definition FEED_CHANNELS : list string :=
  [ "推荐"; "穿搭"; "美食"; "彩妆"; "影视";
    "职场"; "情感"; "家居"; "游戏"; "旅行"; "健身" ].

Definition QR_POLL_INTERVAL_MS : nat := 500.
Definition QR_MAX_ATTEMPTS : nat := 30.
Definition LOGIN_TIMEOUT_SECONDS : nat := 180.

(* ================================================================== *)
(** ** signature.py: category discriminator -> storage endpoint *)

(** The branch of [handle_request] taken when [category] is a non-empty
    Python string (lines 67-87 of signature.py).  [safe_cat] is computed by
    the source but never used. *)
Definition feed_category_endpoint (category : string) : string :=
  if String.eqb category "homefeed_recommend" then "home_feed_recommend"
  else if py_in "." category then
    match py_split "."%char category with
    | _ :: raw_cat0 :: _ =>
        let raw_cat :=
          if py_endswith "_v3" raw_cat0 then py_drop_last 3 raw_cat0
          else List.hd "" (py_split "_"%char raw_cat0) in
        "home_feed_" ++ raw_cat
    | _ => "home_feed"  (* [len(parts) > 1] fails: key stays [endpoint] *)
    end
  else "home_feed_" ++ category.

(* ================================================================== *)
(** ** Python values returned by [json.loads] *)

Set Warnings "-register-all".

Inductive py_json : Type :=
| JNull
| JBool (b : bool)
| JNum (z : Z)
| JStr (s : string)
| JList (l : list py_json)
| JDict (items : list (string * py_json)).

(** [bool(v)]. *)
Definition py_json_truthy (v : py_json) : bool :=
  match v with
  | JNull => false
  | JBool b => b
  | JNum z => negb (Z.eqb z 0)
  | JStr s => negb (String.eqb s "")
  | JList l => negb (Nat.eqb (List.length l) 0)
  | JDict kv => negb (Nat.eqb (List.length kv) 0)
  end.

(** [d.get(k)] on the items of a dict produced by [json.loads]. *)
Fixpoint dict_get (k : string) (kv : list (string * py_json)) : option py_json :=
  match kv with
  | [] => None
  | (k', v) :: kv' => if String.eqb k k' then Some v else dict_get k kv'
  end.

(** Observed outgoing request, as Playwright exposes it. *)
Record request := mk_request {
  req_url : string;
  req_headers : gmap string string;
  req_method : string;
  req_post_data : option string
}.

(** The value stored in [self.signatures[storage_endpoint]]. *)
Record sig_bundle := mk_sig_bundle {
  sb_x_s : string;
  sb_x_t : string;
  sb_x_s_common : string;
  sb_x_b3_traceid : string;
  sb_x_xray_traceid : string;
  sb_method : string;
  sb_post_body : option string
}.

(** Instance state of [SignatureCapture]. *)
Record capture := mk_capture {
  x_s_common : string;
  signatures : gmap string sig_bundle
}.

(** [SignatureCapture.__init__]. *)
Definition capture_init : capture := mk_capture "" ∅.

(** [headers.get(k, "")]. *)
Definition header_get (h : gmap string string) (k : string) : string :=
  default "" (h !! k).

Section Correlator.

(** [json.loads]: [None] when it raises. *)
Variable json_loads : string -> option py_json.
(** [str(v)] for the non-string values an f-string may format. *)
Variable py_str : py_json -> string.

(** The storage key of the home_feed branch for a truthy [category]
    (lines 67-87).  A non-string category raises inside the [try] either at
    [category.split] or at ['.' in category] (TypeError for numbers and
    booleans); the exception is caught and the key stays ["home_feed"]. *)
Definition category_key (c : py_json) : string :=
  match c with
  | JStr s => feed_category_endpoint s
  | JList l =>
      if existsb (fun v => match v with JStr s => String.eqb s "." | _ => false end) l
      then "home_feed"
      else "home_feed_" ++ py_str c
  | JDict kv =>
      if existsb (fun kv0 => String.eqb (fst kv0) ".") kv then "home_feed"
      else "home_feed_" ++ py_str c
  | _ => "home_feed"
  end.

(** [storage_endpoint] for a request matched by the home_feed pattern
    (lines 56-91): [post_data] falsy, JSON decoding failure, a non-dict
    body (AttributeError on [.get]) and a falsy category all leave it at
    [endpoint]. *)
Definition home_feed_key (post_data : option string) : string :=
  if py_truthy_str post_data then
    match post_data with
    | Some pd =>
        match json_loads pd with
        | Some (JDict kv) =>
            match dict_get "category" kv with
            | Some c => if py_json_truthy c then category_key c else "home_feed"
            | None => "home_feed"
            end
        | _ => "home_feed"
        end
    | None => "home_feed"
    end
  else "home_feed".

(** [post_data = request.post_data if request.method == "POST" else None]. *)
Definition post_data_of (r : request) : option string :=
  if String.eqb (req_method r) "POST" then req_post_data r else None.

(** The first [(endpoint, pattern)] of [ENDPOINT_PATTERNS] with
    [pattern in url and 'x-s' in headers]. *)
Fixpoint match_endpoint (pats : list (string * string)) (r : request)
  : option string :=
  match pats with
  | [] => None
  | (endpoint, pattern) :: pats' =>
      if py_in pattern (req_url r) && bool_decide (is_Some (req_headers r !! "x-s"))
      then Some endpoint
      else match_endpoint pats' r
  end.

(** The key under which [handle_request] stores the request's bundle, if
    any. *)
Definition storage_key (r : request) : option string :=
  match match_endpoint ENDPOINT_PATTERNS r with
  | Some endpoint =>
      Some (if String.eqb endpoint "home_feed"
            then home_feed_key (post_data_of r) else endpoint)
  | None => None
  end.

(** The dict assigned at lines 93-101. *)
Definition bundle_of (r : request) : sig_bundle :=
  let h := req_headers r in
  mk_sig_bundle (header_get h "x-s") (header_get h "x-t")
    (header_get h "x-s-common") (header_get h "x-b3-traceid")
    (header_get h "x-xray-traceid") (req_method r) (post_data_of r).

(** Lines 45-47: the longest-seen [x-s-common]. *)
Definition update_x_s_common (cur : string) (h : gmap string string) : string :=
  match h !! "x-s-common" with
  | Some v => if Nat.ltb (String.length cur) (String.length v) then v else cur
  | None => cur
  end.

(** [handle_request]: one observed request. *)
Definition handle_request (st : capture) (r : request) : capture :=
  let xsc := update_x_s_common (x_s_common st) (req_headers r) in
  match storage_key r with
  | Some k => mk_capture xsc (<[k := bundle_of r]> (signatures st))
  | None => mk_capture xsc (signatures st)
  end.

(** A sequence of observations. *)
Definition observe_all (st : capture) (rs : list request) : capture :=
  fold_left handle_request rs st.

End Correlator.

(* ================================================================== *)
(** ** storage.py: the [api_signatures] collection *)

(** A document of [api_signatures] after the [$set] of [save_signature];
    [captured_at] is the clock reading of [datetime.utcnow()]. *)
Record sig_doc := mk_sig_doc {
  doc_endpoint : string;
  doc_x_s : string;
  doc_x_t : string;
  doc_x_s_common : string;
  doc_x_b3_traceid : string;
  doc_x_xray_traceid : string;
  doc_method : string;
  doc_post_body : option string;
  doc_captured_at : Z;
  doc_is_valid : bool
}.

(** The [$set] document built from [signature_data].  The dict always has
    all the keys read here (lines 93-101 of signature.py), so the [.get]
    defaults never apply. *)
Definition sig_doc_of (endpoint : string) (d : sig_bundle) (now : Z) : sig_doc :=
  mk_sig_doc endpoint (sb_x_s d) (sb_x_t d) (sb_x_s_common d)
    (sb_x_b3_traceid d) (sb_x_xray_traceid d) (sb_method d) (sb_post_body d)
    now true.

(** [save_signature]: [update_one({"endpoint": endpoint}, {"$set": ...},
    upsert=True)] on a collection keyed by [endpoint]; every field of the
    document is in the [$set]. *)
Definition save_signature (coll : gmap string sig_doc) (endpoint : string)
    (d : sig_bundle) (now : Z) : gmap string sig_doc :=
  <[endpoint := sig_doc_of endpoint d now]> coll.

(** [SignatureCapture.save_all_signatures]: one [save_signature] per entry,
    returning the collection and the list of saved endpoints. *)
Definition save_all_signatures (coll : gmap string sig_doc) (st : capture)
    (now : Z) : gmap string sig_doc * list string :=
  fold_left (fun acc kv =>
      (save_signature acc.1 kv.1 kv.2 now, (acc.2 ++ [kv.1])%list))
    (map_to_list (signatures st)) (coll, []).

(* ================================================================== *)
(** ** storage.py: the [credentials] collection *)

Record cred_doc := mk_cred_doc {
  cd_user_id : string;
  cd_cookies : gmap string string;
  cd_x_s_common : string;
  cd_created_at : Z;
  cd_updated_at : Z;
  cd_is_valid : bool
}.

(** [update_many({}, {"$set": {"is_valid": False}})]. *)
Definition invalidate_all (coll : list cred_doc) : list cred_doc :=
  map (fun d => mk_cred_doc (cd_user_id d) (cd_cookies d) (cd_x_s_common d)
                  (cd_created_at d) (cd_updated_at d) false) coll.

(** [user_id = "".join(cookies.get(k, "") for k in [...])]. *)
Definition user_id_of (cookies : gmap string string) : string :=
  String.concat "" (map (fun k => default "" (cookies !! k))
                        ["a1"; "webId"; "gid"; "web_session"]).

(** [save_credentials cookies x_s_common] at clock reading [now]: returns
    the new collection (insert_one appends) and the user id. *)
Definition save_credentials (coll : list cred_doc) (cookies : gmap string string)
    (xsc : string) (now : Z) : list cred_doc * string :=
  let coll1 := invalidate_all coll in
  let user_id := user_id_of cookies in
  let doc := mk_cred_doc user_id cookies xsc now now true in
  ((coll1 ++ [doc])%list, user_id).

(** A sequence of [save_credentials] calls [(cookies, x_s_common, now)]. *)
Definition save_credentials_seq (coll : list cred_doc)
    (calls : list (gmap string string * string * Z)) : list cred_doc :=
  fold_left (fun c call =>
      match call with (ck, xsc, now) => (save_credentials c ck xsc now).1 end)
    calls coll.

(* ================================================================== *)
(** ** Python results and exceptions *)

(** The outcome of a Python call: a value, or an exception (its message). *)
Inductive py_result (A : Type) : Type :=
| POk (a : A)
| PRaise (msg : string).
Arguments POk {A} a.
Arguments PRaise {A} msg.

(* ================================================================== *)
(** ** qr_code.py: [base64_to_ascii] *)

(** One decoded symbol from [pyzbar_decode]: its [.data] bytes. *)
Definition zbar_symbol := string.

(** The optional decoding backends and the library calls they provide. *)
Record qr_backends := mk_qr_backends {
  HAS_PYZBAR : bool;
  HAS_QRCODE : bool;
  (** [base64.b64decode]. *)
  b64decode : string -> py_result string;
  (** [pyzbar_decode(Image.open(io.BytesIO(img_data)))]. *)
  zbar_decode : string -> py_result (list zbar_symbol);
  (** [.decode('utf-8')]. *)
  utf8_decode : zbar_symbol -> py_result string;
  (** [QRCode(...); add_data; make(fit=True); get_matrix()]. *)
  qr_matrix : string -> py_result (list (list bool))
}.

(** [_simple_ascii_placeholder()]. *)
Definition simple_ascii_placeholder : string :=
  "
╔═══════════════════════════════╗
║                               ║
║   请使用小红书APP扫描二维码    ║
║   (在浏览器窗口中查看)         ║
║                               ║
╚═══════════════════════════════╝
".

Definition newline : string := String (ascii_of_nat 10) EmptyString.

(** Lines 68-75: the module matrix as block/space glyph rows. *)
Definition render_matrix (modules : list (list bool)) : string :=
  String.concat newline
    (map (fun row => String.concat "" (map (fun cell : bool =>
                        if cell then "█" else " ") row)) modules).

(** Monadic bind for [py_result]: an exception propagates. *)
Definition py_bind {A B} (m : py_result A) (k : A -> py_result B) : py_result B :=
  match m with
  | POk a => k a
  | PRaise e => PRaise e
  end.

#[export] Instance py_result_mret : MRet py_result := @POk.
#[export] Instance py_result_mbind : MBind py_result :=
  fun _ _ k m => py_bind m k.

(** Body of the [try] block (lines 46-78). *)
Definition base64_to_ascii_try (be : qr_backends) (data : string)
  : py_result string :=
  img_data ← b64decode be data ;
  if HAS_PYZBAR be then
    decoded ← zbar_decode be img_data ;
    match decoded with
    | sym :: _ =>
        if HAS_QRCODE be then
          qr_content ← utf8_decode be sym ;
          modules ← qr_matrix be qr_content ;
          POk (render_matrix modules)
        else POk simple_ascii_placeholder
    | [] => POk simple_ascii_placeholder
    end
  else POk simple_ascii_placeholder.

(** [base64_to_ascii]. *)
Definition base64_to_ascii (be : qr_backends) (base64_data : string)
  : py_result string :=
  if String.eqb base64_data "" then POk "[无法获取二维码]"
  else
    let data :=
      if py_in "," base64_data
      then nth 1 (py_split ","%char base64_data) ""
      else base64_data in
    match base64_to_ascii_try be data with
    | POk s => POk s
    | PRaise _ => POk simple_ascii_placeholder
    end.

(* ================================================================== *)
(** ** qr_code.py: [extract_from_page] *)

(** What the page does at one attempt. *)
Record qr_page := mk_qr_page {
  (** [qr_img.wait_for(...)] then [qr_img.get_attribute("src")] at attempt
      [i]: the [src] attribute, or the exception raised. *)
  qp_src : nat -> py_result (option string);
  (** [page.wait_for_timeout] at attempt [i], [j]-th call in the attempt:
      [None] when it returns, [Some e] when it raises [e]. *)
  qp_wait : nat -> nat -> option string
}.

Record qr_result := mk_qr_result {
  qr_success : bool;
  qr_base64 : string;
  qr_ascii : string;
  qr_error : option string
}.

(** The function either returns its [result] dict after [attempts]
    attempts, having slept [waits] (ms, in order), or raises [e] during
    attempt [attempt]. *)
Inductive qr_outcome :=
| QrReturned (res : qr_result) (attempts : nat) (waits : list nat)
| QrRaised (attempt : nat) (e : string).

Definition valid_src (src : string) : bool :=
  py_startswith "data:image" src && Nat.ltb 2000 (String.length src).

(** The outcome of one attempt: the function returns, the loop continues,
    or an exception escapes. *)
Inductive attempt_step :=
| StepReturn (res : qr_result) (waits : list nat)
| StepContinue (res : qr_result) (waits : list nat)
| StepRaise (e : string).

(** The [except] branch (lines 144-148) at attempt [a] with exception [e];
    [j] numbers the [wait_for_timeout] calls made in the attempt. *)
Definition qr_except (pg : qr_page) (a : nat) (e : string) (res : qr_result)
    (waits : list nat) (j : nat) : attempt_step :=
  if Nat.ltb a (QR_MAX_ATTEMPTS - 1) then
    match qp_wait pg a j with
    | None => StepContinue res (waits ++ [QR_POLL_INTERVAL_MS])%list
    | Some e' => StepRaise e'
    end
  else StepContinue (mk_qr_result (qr_success res) (qr_base64 res)
                       (qr_ascii res) (Some e)) waits.

Definition qr_attempt (be : qr_backends) (pg : qr_page) (a : nat)
    (res : qr_result) (waits : list nat) : attempt_step :=
  let on_exn e j := qr_except pg a e res waits j in
  match qp_src pg a with
  | PRaise e => on_exn e 0
  | POk osrc =>
      match osrc with
      | Some src =>
          if valid_src src then
            match base64_to_ascii be src with
            | POk asc =>
                StepReturn (mk_qr_result true src asc (qr_error res)) waits
            | PRaise e =>
                (* [result["base64"] = src] already ran *)
                qr_except pg a e (mk_qr_result (qr_success res) src
                                    (qr_ascii res) (qr_error res)) waits 0
            end
          else if Nat.ltb a (QR_MAX_ATTEMPTS - 1) then
            match qp_wait pg a 0 with
            | None => StepContinue res (waits ++ [QR_POLL_INTERVAL_MS])%list
            | Some e => on_exn e 1
            end
          else StepContinue res waits
      | None =>
          if Nat.ltb a (QR_MAX_ATTEMPTS - 1) then
            match qp_wait pg a 0 with
            | None => StepContinue res (waits ++ [QR_POLL_INTERVAL_MS])%list
            | Some e => on_exn e 1
            end
          else StepContinue res waits
      end
  end.

(** [for attempt in range(QR_MAX_ATTEMPTS)], from attempt [a] with [n]
    attempts left. *)
Fixpoint qr_loop (be : qr_backends) (pg : qr_page) (n a : nat)
    (res : qr_result) (waits : list nat) : qr_outcome :=
  match n with
  | 0 => QrReturned res a waits
  | S n' =>
      match qr_attempt be pg a res waits with
      | StepReturn res' waits' => QrReturned res' (S a) waits'
      | StepContinue res' waits' => qr_loop be pg n' (S a) res' waits'
      | StepRaise e => QrRaised a e
      end
  end.

Definition qr_result_init : qr_result := mk_qr_result false "" "" None.

(** [extract_from_page]. *)
Definition extract_from_page (be : qr_backends) (pg : qr_page) : qr_outcome :=
  qr_loop be pg QR_MAX_ATTEMPTS 0 qr_result_init [].

(* ================================================================== *)
(** ** browser.py: [wait_for_login_complete] *)

(** [page.wait_for_timeout] outcome: returns, raises a "Target ... closed"
    error, or raises another error. *)
Inductive wait_outcome :=
| WaitOk
| WaitTargetClosed (msg : string)
| WaitOther (msg : string).

(** What the browser shows at poll [i] (after its sleep). *)
Record poll_obs := mk_poll_obs {
  po_wait : wait_outcome;
  po_url : string;
  (** [await avatar.count() > 0 and await avatar.is_visible()], [False]
      when it raises (the bare [except: pass]). *)
  po_avatar_visible : bool;
  (** [await context.cookies()] in the cookie check, as (name, value). *)
  po_cookies : list (string * string)
}.

Record login_env := mk_login_env {
  le_initial_cookies : list (string * string);
  le_poll : nat -> poll_obs;
  (** cookies after the settle wait on confirmation *)
  le_final_cookies : list (string * string);
  (** on confirmation, the exception raised by the settle
      [page.wait_for_timeout(2000)] or the final [context.cookies()]
      (lines 232-236, outside any [try]), if one of them raises *)
  le_settle_raises : option string
}.

Record login_result := mk_login_result {
  lr_success : bool;
  lr_cookies : list (string * string);
  lr_status : string;
  lr_error : option string
}.

(** The function returns [res] having slept [elapsed] ms in
    [wait_for_timeout], or raises. *)
Inductive login_outcome :=
| LoginReturned (res : login_result) (elapsed : nat)
| LoginRaised (msg : string).

(** [next((c['value'] for c in cookies if c['name'] == 'web_session'), None)]. *)
Fixpoint web_session_of (cookies : list (string * string)) : option string :=
  match cookies with
  | [] => None
  | (n, v) :: cs => if String.eqb n "web_session" then Some v else web_session_of cs
  end.

(** [if current_web_session and current_web_session != initial_web_session]. *)
Definition session_changed (initial cur : option string) : bool :=
  py_truthy_str cur &&
  negb (bool_decide (cur = initial)).

Definition login_poll_interval : nat := 2000.

(** Polls [i .. i + n - 1] of the loop (lines 178-230). *)
Fixpoint login_loop (env : login_env) (initial : option string) (n i : nat)
    (res : login_result) (elapsed : nat) : login_outcome :=
  match n with
  | 0 => LoginReturned res elapsed
  | S n' =>
      let o := le_poll env i in
      match po_wait o with
      | WaitTargetClosed _ =>
          LoginReturned (mk_login_result (lr_success res) (lr_cookies res)
                           "cancelled" (Some "Browser was closed by user"))
                        elapsed
      | WaitOther e => LoginRaised e
      | WaitOk =>
          let elapsed' := elapsed + login_poll_interval in
          if py_in "/user/profile/" (po_url o) then
            LoginReturned (mk_login_result (lr_success res) (lr_cookies res)
                             "confirmed" (lr_error res)) elapsed'
          else if po_avatar_visible o then
            LoginReturned (mk_login_result (lr_success res) (lr_cookies res)
                             "confirmed" (lr_error res)) elapsed'
          else if session_changed initial (web_session_of (po_cookies o)) then
            LoginReturned (mk_login_result (lr_success res) (po_cookies o)
                             "confirmed" (lr_error res)) elapsed'
          else login_loop env initial n' (S i) res elapsed'
      end
  end.

Definition login_result_init : login_result := mk_login_result false [] "waiting" None.

(** [wait_for_login_complete(page, context, timeout)], [timeout] in whole
    seconds (the default is [LOGIN_TIMEOUT_SECONDS]). *)
Definition wait_for_login_complete (env : login_env) (timeout : nat) : login_outcome :=
  let initial := web_session_of (le_initial_cookies env) in
  let max_polls := (timeout * 1000) / login_poll_interval in
  match login_loop env initial max_polls 0 login_result_init 0 with
  | LoginReturned res elapsed =>
      if String.eqb (lr_status res) "confirmed" then
        match le_settle_raises env with
        | Some e => LoginRaised e
        | None =>
            LoginReturned (mk_login_result true (le_final_cookies env) (lr_status res)
                             (lr_error res)) (elapsed + 2000)
        end
      else LoginReturned res elapsed
  | LoginRaised e => LoginRaised e
  end.

(** A poll at which none of the completion signals fires and the sleep
    returns normally. *)
Definition no_signal (initial : option string) (o : poll_obs) : Prop :=
  po_wait o = WaitOk /\ py_in "/user/profile/" (po_url o) = false /\
  po_avatar_visible o = false /\
  session_changed initial (web_session_of (po_cookies o)) = false.

(* ================================================================== *)
(** ** browser.py: [traverse_feed_channels] *)

(** Observable actions of the driver on the page, in order. *)
Inductive driver_event :=
| EvGoto (url : string)
| EvWaitLoadState (state : string)
| EvLocate (channel : string)
| EvSkipMissing (channel : string)
(** [page.expect_response(predicate)] registered; never emitted by
    [traverse_feed_channels], used by its siblings. *)
| EvExpectResponse (channel : string)
| EvClick (channel : string)
| EvWait (ms : nat)
| EvScroll (dy : nat)
| EvCaptured (channel : string)
| EvFailed (channel : string)
(** an exception escapes [traverse_feed_channels]; nothing follows *)
| EvRaise (msg : string).

(** The awaited calls of a channel's [try] block after the visibility
    check, in source order (lines 337-355), apart from the [networkidle]
    wait, whose exceptions are swallowed by its bare [except]. *)
Inductive channel_step :=
| StClick          (* await tab.click() *)
| StSettleWait     (* await page.wait_for_timeout(2000) *)
| StScroll         (* await page.mouse.wheel(0, 500) *)
| StScrollWait     (* await page.wait_for_timeout(1000) *)
| StDelayWait.     (* await page.wait_for_timeout(delay) *)

Record traversal_env := mk_traversal_env {
  te_page_url : string;
  (** the exception raised by [page.goto(XHS_EXPLORE_URL)] (line 317), if any *)
  te_goto_raises : option string;
  (** the exception raised by [page.wait_for_load_state("networkidle")]
      (line 318), if any *)
  te_idle_raises : option string;
  (** [await tab.is_visible()] for a channel tab: a boolean, or the
      exception raised *)
  te_tab_visible : string -> py_result bool;
  (** the first call of [channel_step] that raises for the channel, if any *)
  te_raises_at : string -> option channel_step;
  (** whether a response matching the channel's endpoint-and-category
      predicate reaches the page after the click *)
  te_response_arrives : string -> bool;
  (** [random.uniform(1000, 2000)] drawn after the channel *)
  te_delay : string -> nat
}.

Fixpoint assoc_get (k : string) (l : list (string * string)) : option string :=
  match l with
  | [] => None
  | (k', v) :: l' => if String.eqb k k' then Some v else assoc_get k l'
  end.

(** One iteration of the channel loop (lines 320-358).  The
    [wait_for_load_state("networkidle", timeout=5000)] call is in a
    bare [try/except: pass] and is recorded as such.  An exception in the
    [try] block is caught by its [except Exception] (line 357), which
    prints the failure ([EvFailed]); the loop goes on. *)
Definition traverse_channel (env : traversal_env) (channel : string)
  : list driver_event :=
  match assoc_get channel CHANNEL_MAP with
  | None => []
  | Some _target_category =>
      EvLocate channel ::
      match te_tab_visible env channel with
      | PRaise _ => [EvFailed channel]
      | POk false => [EvSkipMissing channel]
      | POk true =>
          match te_raises_at env channel with
          | None =>
              [EvClick channel; EvWait 2000; EvScroll 500; EvWait 1000;
               EvWaitLoadState "networkidle"; EvCaptured channel;
               EvWait (te_delay env channel)]
          | Some StClick => [EvFailed channel]
          | Some StSettleWait => [EvClick channel; EvFailed channel]
          | Some StScroll => [EvClick channel; EvWait 2000; EvFailed channel]
          | Some StScrollWait =>
              [EvClick channel; EvWait 2000; EvScroll 500; EvFailed channel]
          | Some StDelayWait =>
              [EvClick channel; EvWait 2000; EvScroll 500; EvWait 1000;
               EvWaitLoadState "networkidle"; EvCaptured channel;
               EvFailed channel]
          end
      end
  end.

(** [traverse_feed_channels(page)]: the event trace.  The navigation of
    lines 316-318 is outside any [try]: an exception there escapes. *)
Definition traverse_feed_channels (env : traversal_env) : list driver_event :=
  if py_in "/explore" (te_page_url env)
  then flat_map (traverse_channel env) FEED_CHANNELS
  else match te_goto_raises env with
       | Some e => [EvRaise e]
       | None =>
           EvGoto "https://www.xiaohongshu.com/explore" ::
           match te_idle_raises env with
           | Some e => [EvRaise e]
           | None =>
               EvWaitLoadState "networkidle" ::
               flat_map (traverse_channel env) FEED_CHANNELS
           end
       end.

(** A home_feed body that carries no usable category: no body, an empty
    body, one [json.loads] rejects, a non-dict value, or a dict whose
    ["category"] is absent or falsy. *)
Definition no_category_body (json_loads : string -> option py_json)
    (od : option string) : Prop :=
  match od with
  | None => True
  | Some pd =>
      pd = "" \/
      match json_loads pd with
      | Some (JDict kv) =>
          match dict_get "category" kv with
          | None => True
          | Some c => py_json_truthy c = false
          end
      | _ => True
      end
  end.

(** The length of the longest [x-s-common] header among [rs] (0 if none). *)
Fixpoint max_xsc_len (rs : list request) : nat :=
  match rs with
  | [] => 0
  | r :: rs' =>
      Nat.max (match req_headers r !! "x-s-common" with
               | Some v => String.length v
               | None => 0
               end) (max_xsc_len rs')
  end.

(* ================================================================== *)
(** ** storage.py: [invalidate_all_credentials] *)

(** [update_many({}, {"$set": {"is_valid": False}})] and its
    [modified_count]: MongoDB counts only the documents the update actually
    changes, i.e. those whose [is_valid] was not already [False]. *)
Definition invalidate_all_credentials (coll : list cred_doc) : list cred_doc * nat :=
  (invalidate_all coll, List.length (List.filter cd_is_valid coll)).

(* ================================================================== *)
(** ** browser.py: [QrCodeStatusMonitor] *)

Definition QRCODE_STATUS_URL : string := "/api/sns/web/v1/login/qrcode/status".

(** An observed response: its URL, HTTP status and [await response.json()]
    ([None] when it raises). *)
Record response := mk_response {
  resp_url : string;
  resp_status : Z;
  resp_json : option py_json
}.

(** [latest_status] holds the items of the last accepted response dict;
    [None] is Python's [None]. *)
Record qr_monitor := mk_qr_monitor {
  latest_status : option (list (string * py_json));
  login_info : option py_json;
  status_history : list py_json
}.

Definition qr_monitor_init : qr_monitor := mk_qr_monitor None None [].

(** [k in d] for a dict. *)
Definition dict_has (k : string) (kv : list (string * py_json)) : bool :=
  match dict_get k kv with Some _ => true | None => false end.

(** [v == 2] for a JSON value (integers only are modelled). *)
Definition py_eq_num (v : py_json) (n : Z) : bool :=
  match v with JNum z => Z.eqb z n | _ => false end.

(** [QrCodeStatusMonitor.create_response_handler()(response)].  An
    exception inside the [try] (non-dict JSON, [.get] on a non-dict
    ["data"]) is swallowed; the state changes made before it stay. *)
Definition monitor_handle (m : qr_monitor) (r : response) : qr_monitor :=
  if py_in QRCODE_STATUS_URL (resp_url r) && Z.eqb (resp_status r) 200 then
    match resp_json r with
    | Some (JDict data) =>
        if py_json_truthy (default JNull (dict_get "success" data)) &&
           dict_has "data" data then
          match dict_get "data" data with
          | Some (JDict sd) =>
              let code_status := default JNull (dict_get "code_status" sd) in
              let hist := (status_history m ++ [code_status])%list in
              if py_eq_num code_status 2 && dict_has "login_info" sd then
                mk_qr_monitor (Some data) (dict_get "login_info" sd) hist
              else mk_qr_monitor (Some data) (login_info m) hist
          | _ => m
          end
        else m
    | _ => m
    end
  else m.

Definition monitor_run (m : qr_monitor) (rs : list response) : qr_monitor :=
  fold_left monitor_handle rs m.

(** [get_code_status]: [latest_status.get("data", {}).get("code_status", -1)];
    a non-dict ["data"] would raise. *)
Definition get_code_status (m : qr_monitor) : py_result py_json :=
  match latest_status m with
  | Some data =>
      if negb (Nat.eqb (List.length data) 0) then
        match dict_get "data" data with
        | None => POk (JNum (-1))
        | Some (JDict sd) => POk (default (JNum (-1)) (dict_get "code_status" sd))
        | Some _ => PRaise "AttributeError: object has no attribute 'get'"
        end
      else POk (JNum (-1))
  | None => POk (JNum (-1))
  end.

(** [is_logged_in]: [get_code_status() == 2]. *)
Definition is_logged_in (m : qr_monitor) : py_result bool :=
  match get_code_status m with
  | POk v => POk (py_eq_num v 2)
  | PRaise e => PRaise e
  end.

(** The monitor states reachable from [qr_monitor_init]. *)
Definition monitor_wf (m : qr_monitor) : Prop :=
  (latest_status m = None /\ status_history m = [] /\ login_info m = None) \/
  (exists data sd,
     latest_status m = Some data /\ dict_get "data" data = Some (JDict sd) /\
     last (status_history m) = Some (default JNull (dict_get "code_status" sd))).

(** Whether attempt [j] of [extract_from_page] reads a usable [src]. *)
Definition src_valid_at (pg : qr_page) (j : nat) : bool :=
  match qp_src pg j with
  | POk (Some s) => valid_src s
  | _ => false
  end.

(** The channels whose tab the traversal looks up, in order. *)
Fixpoint located_channels (tr : list driver_event) : list string :=
  match tr with
  | [] => []
  | EvLocate ch :: tr' => ch :: located_channels tr'
  | _ :: tr' => located_channels tr'
  end.

(** A storage key of the home_feed branch. *)
Definition home_feed_shaped (k : string) : Prop :=
  k = "home_feed" \/ exists suffix, k = "home_feed_" ++ suffix.

(* ================================================================== *)
(** ** browser.py: the search-box loop of [trigger_signature_pages] *)

(** [search_selectors], in the order they are tried. *)
Definition search_selectors : list string :=
  let dq := String (Ascii.ascii_of_nat 34) EmptyString in
  [ "input[placeholder*=" ++ dq ++ "搜索" ++ dq ++ "]"; ".search-input"; "#search-input";
    "input[type=" ++ dq ++ "search" ++ dq ++ "]"; ".nav-search input" ].

(** Observable actions of the search-box loop. *)
Inductive search_event :=
| SLocate (selector : string)
| SExpectResponse (selector : string)
| SClick (selector : string)
| SCaptured.

Record search_env := mk_search_env {
  (** [await search_box.is_visible(timeout=2000)]: a boolean, or the
      exception raised *)
  se_visible : string -> py_result bool;
  (** whether, inside [page.expect_response(trending_predicate,
      timeout=8000)], the click succeeds and a matching response arrives
      (otherwise the [async with] raises) *)
  se_click_captured : string -> bool
}.

(** Lines 269-285: the events and the final value of [clicked]. *)
Fixpoint search_loop (env : search_env) (sels : list string)
  : list search_event * bool :=
  match sels with
  | [] => ([], false)
  | sel :: sels' =>
      match se_visible env sel with
      | POk true =>
          if se_click_captured env sel
          then ([SLocate sel; SExpectResponse sel; SClick sel; SCaptured], true)
          else let '(t, c) := search_loop env sels' in
               (SLocate sel :: SExpectResponse sel :: SClick sel :: t, c)
      | _ => let '(t, c) := search_loop env sels' in (SLocate sel :: t, c)
      end
  end.

(** The selectors the loop looks up, in order. *)
Fixpoint searched_selectors (tr : list search_event) : list string :=
  match tr with
  | [] => []
  | SLocate s :: tr' => s :: searched_selectors tr'
  | _ :: tr' => searched_selectors tr'
  end.

(* ================================================================== *)
(** ** login.py: [run_full_login] *)

(** [{c['name']: c['value'] for c in cookies}]: later entries win. *)
Definition cookie_dict (l : list (string * string)) : gmap string string :=
  fold_left (fun m kv => <[kv.1 := kv.2]> m) l ∅.

(** What the browser session of [run_full_login] does.  The requests the
    page issues reach the [SignatureCapture] handler: [fe_requests_login]
    are those observed before [save_credentials] is called,
    [fe_requests_capture] those observed afterwards (during
    [trigger_signature_pages], [traverse_feed_channels] and the final
    wait).  Exceptions inside the two capture functions are caught by the
    source and only their requests matter here. *)
Record full_login_env := mk_full_login_env {
  (** [await navigate_to_login(page)] *)
  fe_nav : py_result bool;
  fe_backends : qr_backends;
  fe_qr_page : qr_page;
  fe_login : login_env;
  fe_requests_login : list request;
  fe_requests_capture : list request;
  (** [await page.wait_for_timeout(2000)] before saving the signatures:
      [Some e] when it raises *)
  fe_final_wait : option string;
  fe_now : Z
}.

Record full_login_result := mk_full_login_result {
  fl_success : bool;
  fl_user_id : option string;
  fl_cookie_count : nat;
  fl_signatures : list string;
  fl_error : option string
}.

(** The returned dict or the escaping exception, with the [credentials]
    and [api_signatures] collections afterwards. *)
Inductive full_login_outcome :=
| FullReturned (res : full_login_result) (creds : list cred_doc)
    (sigs : gmap string sig_doc)
| FullRaised (e : string) (creds : list cred_doc) (sigs : gmap string sig_doc).

Definition full_login_failed (msg : string) : full_login_result :=
  mk_full_login_result false None 0 [] (Some msg).

Definition run_full_login (json_loads : string -> option py_json)
    (py_str : py_json -> string) (fe : full_login_env)
    (creds : list cred_doc) (sigs : gmap string sig_doc) : full_login_outcome :=
  match fe_nav fe with
  | PRaise e => FullRaised e creds sigs
  | POk false => FullReturned (full_login_failed "Failed to navigate to login") creds sigs
  | POk true =>
      match extract_from_page (fe_backends fe) (fe_qr_page fe) with
      | QrRaised _ e => FullRaised e creds sigs
      | QrReturned qr _ _ =>
          if negb (qr_success qr)
          then FullReturned (full_login_failed "Failed to extract QR code") creds sigs
          else
            match wait_for_login_complete (fe_login fe) LOGIN_TIMEOUT_SECONDS with
            | LoginRaised e => FullRaised e creds sigs
            | LoginReturned lr _ =>
                if negb (lr_success lr)
                then FullReturned (full_login_failed "Login timeout or failed") creds sigs
                else
                  let cookies := cookie_dict (lr_cookies lr) in
                  let cap1 := observe_all json_loads py_str capture_init
                                (fe_requests_login fe) in
                  let '(creds', user_id) :=
                    save_credentials creds cookies (x_s_common cap1) (fe_now fe) in
                  let cap2 := observe_all json_loads py_str cap1
                                (fe_requests_capture fe) in
                  match fe_final_wait fe with
                  | Some e => FullRaised e creds' sigs
                  | None =>
                      let '(sigs', saved) := save_all_signatures sigs cap2 (fe_now fe) in
                      FullReturned (mk_full_login_result true (Some user_id)
                                      (size cookies) saved None) creds' sigs'
                  end
            end
      end
  end.

(** One rendered row of [render_matrix]. *)
Definition render_row (row : list bool) : string :=
  String.concat "" (map (fun cell : bool => if cell then "█" else " ") row).

(** Reading a rendered QR grid back: a space is an unset module, the
    three UTF-8 bytes of ["█"] a set one. *)
Fixpoint parse_row (s : string) : list bool :=
  match s with
  | EmptyString => []
  | String c r =>
      if Ascii.eqb c " "%char then false :: parse_row r
      else match r with
           | String _ (String _ r') => true :: parse_row r'
           | _ => []
           end
  end.

Definition parse_matrix (s : string) : list (list bool) :=
  map parse_row (py_split (ascii_of_nat 10) s).

(* ================================================================== *)
(** ** Concrete inputs used by the witnesses and counterexamples *)

(** A [json.loads] table for the bodies used below (body text -> value);
    every other body fails to decode. *)
Definition example_bodies : list (string * py_json) :=
  [ ("fashion-body", JDict [("category", JStr "homefeed.fashion_v3")]);
    ("hot-body", JDict [("category", JStr "homefeed_hot")]);
    ("nocat-body", JDict [("num", JNum 20)]) ].

Fixpoint json_table (t : list (string * py_json)) (pd : string) : option py_json :=
  match t with
  | [] => None
  | (b, v) :: t' => if String.eqb pd b then Some v else json_table t' pd
  end.

Definition json_loads_example : string -> option py_json := json_table example_bodies.

(** [str(v)] for the example: never reached by the bodies above. *)
Definition py_str_example (_ : py_json) : string := "".

Definition feed_url : string := "https://edith.xiaohongshu.com/api/sns/web/v1/homefeed".

Definition feed_headers : gmap string string :=
  <["x-s" := "XYW_sig"]> (<["x-t" := "1700000000000"]>
    (<["x-s-common" := "2UQAPsHC"]> ∅)).

Definition feed_request (method : string) (body : option string) : request :=
  mk_request feed_url feed_headers method body.

(** The same fashion-channel feed request, signed again later: other
    [x-s] and [x-t] values. *)
Definition feed_headers_resigned : gmap string string :=
  <["x-s" := "XYW_sig2"]> (<["x-t" := "1700000060000"]>
    (<["x-s-common" := "2UQAPsHC"]> ∅)).

Definition feed_request_resigned : request :=
  mk_request feed_url feed_headers_resigned "POST" (Some "fashion-body").

(** A login page on which nothing happens: the explore page stays, no
    avatar, no [web_session] cookie. *)
Definition idle_login_env : login_env :=
  mk_login_env []
    (fun _ => mk_poll_obs WaitOk "https://www.xiaohongshu.com/explore" false [])
    []
    None.

(** The explore page with every channel tab visible and every call
    returning, on which no feed response matching a channel's predicate
    ever arrives. *)
Definition silent_feed_env : traversal_env :=
  mk_traversal_env "https://www.xiaohongshu.com/explore" None None
    (fun _ => POk true) (fun _ => None) (fun _ => false) (fun _ => 1500).

Definition qr_status_ok_response : response :=
  mk_response "https://edith.xiaohongshu.com/api/sns/web/v1/login/qrcode/status?qr_id=1"
    200 (Some (JDict [("success", JBool true);
                      ("data", JDict [("code_status", JNum 2);
                                      ("login_info", JDict [("user_id", JStr "u1")])])])).

(** Backends with neither [pyzbar] nor [qrcode] installed, whose
    [b64decode] accepts any input. *)
Definition no_backends : qr_backends :=
  mk_qr_backends false false (fun s => POk s) (fun _ => POk [])
    (fun _ => PRaise "UnicodeDecodeError") (fun _ => POk []).

Fixpoint repeat_char (n : nat) (c : ascii) : string :=
  match n with
  | 0 => EmptyString
  | S n' => String c (repeat_char n' c)
  end.

(** A QR image whose [src] is a 2022-character data URI. *)
Definition long_qr_src : string :=
  "data:image/png;base64," ++ repeat_char 2000 "A"%char.

(** A page where the QR image is missing for two attempts and then
    shows [long_qr_src]. *)
Definition page_ready_at_2 : qr_page :=
  mk_qr_page (fun j => if Nat.ltb j 2 then POk None else POk (Some long_qr_src))
    (fun _ _ => None).

(** A page whose QR image never appears; the last lookup times out. *)
Definition page_never_ready : qr_page :=
  mk_qr_page (fun j => if Nat.eqb j 29 then PRaise "Timeout 5000ms exceeded" else POk None)
    (fun _ _ => None).

(** A login where the browser navigates to the profile page at poll 1. *)
Definition profile_login_env : login_env :=
  mk_login_env []
    (fun j => if Nat.eqb j 1
              then mk_poll_obs WaitOk "https://www.xiaohongshu.com/user/profile/5f0c" false []
              else mk_poll_obs WaitOk "https://www.xiaohongshu.com/explore" false [])
    [("web_session", "040069b5"); ("a1", "18c2")]
    None.

(** A login where the user closes the window during poll 1. *)
Definition closed_login_env : login_env :=
  mk_login_env []
    (fun j => if Nat.eqb j 1
              then mk_poll_obs (WaitTargetClosed "Target page, context or browser has been closed")
                     "https://www.xiaohongshu.com/explore" false []
              else mk_poll_obs WaitOk "https://www.xiaohongshu.com/explore" false [])
    []
    None.

(* ================================================================== *)
(** * Proofs *)

(** ** String lemmas *)

Lemma py_in_single_cons (c a : ascii) (r : string) :
  py_in (String c EmptyString) (String a r) =
  (if ascii_dec c a then true else false) || py_in (String c EmptyString) r.
Proof. simpl. destruct (ascii_dec c a); [destruct r|]; reflexivity. Qed.

Lemma py_split_no_sep (c : ascii) (p : string) :
  py_in (String c EmptyString) p = false -> py_split c p = [p].
Proof.
  induction p as [|a r IH]; intros H; [reflexivity|].
  rewrite py_in_single_cons in H.
  destruct (ascii_dec c a) as [->|Hne]; [discriminate|].
  simpl in H. simpl. rewrite (IH H).
  destruct (Ascii.eqb_spec a c); [congruence|reflexivity].
Qed.

Lemma py_split_no_sep_app (c : ascii) (p q : string) :
  py_in (String c EmptyString) p = false ->
  py_split c (p ++ String c q) = p :: py_split c q.
Proof.
  induction p as [|a r IH]; intros H.
  - simpl. rewrite Ascii.eqb_refl. reflexivity.
  - rewrite py_in_single_cons in H.
    destruct (ascii_dec c a) as [->|Hne]; [discriminate|].
    simpl in H. simpl. rewrite (IH H).
    destruct (Ascii.eqb_spec a c); [congruence|reflexivity].
Qed.

Lemma py_in_single_app (c : ascii) (p q : string) :
  py_in (String c EmptyString) (p ++ String c q) = true.
Proof.
  induction p as [|a r IH].
  - change (py_in (String c EmptyString) (String c q) = true).
    rewrite py_in_single_cons. destruct (ascii_dec c c); [reflexivity|congruence].
  - change (py_in (String c EmptyString) (String a (r ++ String c q)) = true).
    rewrite py_in_single_cons, IH. apply orb_true_r.
Qed.

Lemma length_append (s t : string) :
  String.length (s ++ t) = String.length s + String.length t.
Proof. induction s; simpl; auto. Qed.

Lemma substring_0_length (t : string) : substring 0 (String.length t) t = t.
Proof. induction t; simpl; [reflexivity|]. now rewrite IHt. Qed.

Lemma substring_suffix (s t : string) :
  substring (String.length s) (String.length t) (s ++ t) = t.
Proof. induction s; simpl; [apply substring_0_length | exact IHs]. Qed.

Lemma substring_prefix (s t : string) :
  substring 0 (String.length s) (s ++ t) = s.
Proof. induction s; simpl; [now destruct t|]. now rewrite IHs. Qed.

Lemma py_endswith_app (s t : string) : py_endswith t (s ++ t) = true.
Proof.
  unfold py_endswith. rewrite length_append.
  replace (String.length s + String.length t - String.length t)
    with (String.length s) by lia.
  rewrite substring_suffix, String.eqb_refl.
  apply andb_true_intro; split; [apply Nat.leb_le; lia | reflexivity].
Qed.

Lemma py_drop_last_app (s t : string) :
  py_drop_last (String.length t) (s ++ t) = s.
Proof.
  unfold py_drop_last. rewrite length_append.
  replace (String.length s + String.length t - String.length t)
    with (String.length s) by lia.
  apply substring_prefix.
Qed.

Lemma append_empty_r (s : string) : (s ++ EmptyString)%string = s.
Proof. induction s as [|a r IH]; [reflexivity|]. simpl. now rewrite IH. Qed.

(** The segment before the first separator of [u ++ rest]. *)
Lemma py_split_first (c : ascii) (u rest : string) :
  py_in (String c EmptyString) u = false ->
  (rest = EmptyString \/ exists t, rest = String c t) ->
  List.hd "" (py_split c (u ++ rest)) = u.
Proof.
  intros Hu [->|[t ->]].
  - rewrite append_empty_r, (py_split_no_sep c u Hu). reflexivity.
  - rewrite (py_split_no_sep_app c u t Hu). reflexivity.
Qed.

(** The second segment of [p ++ "." ++ seg ++ tail]. *)
Lemma py_split_second (c : ascii) (p seg tail : string) :
  py_in (String c EmptyString) p = false ->
  py_in (String c EmptyString) seg = false ->
  (tail = EmptyString \/ exists t, tail = String c t) ->
  exists rest, py_split c (p ++ String c (seg ++ tail)) = p :: seg :: rest.
Proof.
  intros Hp Hs Ht. rewrite (py_split_no_sep_app c p _ Hp).
  destruct Ht as [->|[t ->]].
  - rewrite append_empty_r, (py_split_no_sep c seg Hs). now exists [].
  - rewrite (py_split_no_sep_app c seg t Hs). now exists (py_split c t).
Qed.

(** ** The home_feed branch of [handle_request] *)

Lemma storage_key_home_feed (json_loads : string -> option py_json)
    (py_str : py_json -> string) (r : request) :
  match_endpoint ENDPOINT_PATTERNS r = Some "home_feed" ->
  storage_key json_loads py_str r = Some (home_feed_key json_loads py_str (post_data_of r)).
Proof. intros H. unfold storage_key. now rewrite H. Qed.

Lemma home_feed_key_string_category (json_loads : string -> option py_json)
    (py_str : py_json -> string) (pd : string) kv (c : string) :
  pd <> "" -> json_loads pd = Some (JDict kv) ->
  dict_get "category" kv = Some (JStr c) -> c <> "" ->
  home_feed_key json_loads py_str (Some pd) = feed_category_endpoint c.
Proof.
  intros Hpd Hj Hc Hne. unfold home_feed_key.
  destruct pd as [|a pd']; [congruence|]. cbn [py_truthy_str].
  rewrite Hj, Hc. simpl.
  destruct (String.eqb_spec c ""); [congruence|reflexivity].
Qed.

Lemma feed_category_dotted (p seg tail : string) :
  py_in "." p = false -> py_in "." seg = false ->
  (tail = "" \/ exists t, tail = String "." t) ->
  feed_category_endpoint (p ++ String "." (seg ++ tail)) =
  "home_feed_" ++ (if py_endswith "_v3" seg then py_drop_last 3 seg
                   else List.hd "" (py_split "_" seg)).
Proof.
  intros Hp Hs Ht. unfold feed_category_endpoint.
  pose proof (py_in_single_app "." p (seg ++ tail)) as Hdot.
  destruct (String.eqb_spec (p ++ String "." (seg ++ tail)) "homefeed_recommend")
    as [Heq|_].
  { rewrite Heq in Hdot. discriminate. }
  rewrite Hdot.
  destruct (py_split_second "." p seg tail Hp Hs Ht) as [rest ->].
  reflexivity.
Qed.

Lemma feed_category_undotted (c : string) :
  py_in "." c = false -> c <> "homefeed_recommend" ->
  feed_category_endpoint c = "home_feed_" ++ c.
Proof.
  intros Hc Hne. unfold feed_category_endpoint.
  destruct (String.eqb_spec c "homefeed_recommend"); [congruence|].
  now rewrite Hc.
Qed.

(** C1 (amended).  For a home_feed request whose JSON body carries a
    non-empty string [category], the storage key is derived from the
    category: ["homefeed_recommend"] gives ["home_feed_recommend"]; a dotted
    category whose second dot-segment is [s ++ "_v3"] gives
    ["home_feed_" ++ s]; a dotted category whose second segment lacks the
    ["_v3"] suffix gives ["home_feed_"] followed by the first
    underscore-delimited segment of that second dot-segment; an undotted
    category other than ["homefeed_recommend"] gives ["home_feed_"] followed
    by the whole category, without any underscore splitting. *)
Theorem C1_feed_endpoint_id (json_loads : string -> option py_json)
    (py_str : py_json -> string) (r : request) (pd : string) kv (c : string) :
  match_endpoint ENDPOINT_PATTERNS r = Some "home_feed" ->
  post_data_of r = Some pd -> pd <> "" ->
  json_loads pd = Some (JDict kv) ->
  dict_get "category" kv = Some (JStr c) -> c <> "" ->
  storage_key json_loads py_str r = Some (feed_category_endpoint c) /\
  (c = "homefeed_recommend" -> feed_category_endpoint c = "home_feed_recommend") /\
  (forall p seg tail, c = p ++ String "." (seg ++ tail) ->
     py_in "." p = false -> py_in "." seg = false ->
     (tail = "" \/ exists t, tail = String "." t) ->
     (forall s, seg = s ++ "_v3" -> feed_category_endpoint c = "home_feed_" ++ s) /\
     (py_endswith "_v3" seg = false ->
      forall u rest, seg = u ++ rest -> py_in "_" u = false ->
        (rest = "" \/ exists t, rest = String "_" t) ->
        feed_category_endpoint c = "home_feed_" ++ u)) /\
  (py_in "." c = false -> c <> "homefeed_recommend" ->
   feed_category_endpoint c = "home_feed_" ++ c).
Proof.
  intros Hm Hpost Hpd Hj Hc Hne. split; [|split; [|split]].
  - rewrite (storage_key_home_feed _ _ _ Hm), Hpost.
    f_equal. now apply home_feed_key_string_category with kv.
  - intros ->. reflexivity.
  - intros p seg tail -> Hp Hs Ht.
    rewrite (feed_category_dotted p seg tail Hp Hs Ht). split.
    + intros s ->. rewrite py_endswith_app.
      change 3 with (String.length "_v3"). now rewrite py_drop_last_app.
    + intros Hv3 u rest -> Hu Hrest. rewrite Hv3.
      now rewrite (py_split_first "_" u rest Hu Hrest).
  - apply feed_category_undotted.
Qed.

Lemma C1_witness :
  storage_key json_loads_example py_str_example
    (feed_request "POST" (Some "fashion-body")) = Some "home_feed_fashion".
Proof.
  refine (proj1 (C1_feed_endpoint_id json_loads_example py_str_example
    (feed_request "POST" (Some "fashion-body")) "fashion-body"
    [("category", JStr "homefeed.fashion_v3")] "homefeed.fashion_v3"
    _ _ _ _ _ _)); first [reflexivity | discriminate].
Defined.

(** C1 as stated fails: the undotted category ["homefeed_hot"] has no
    version suffix, yet its key keeps the whole category rather than its
    first underscore-delimited segment ["homefeed"]. *)
Lemma C1_counterexample :
  storage_key json_loads_example py_str_example
    (feed_request "POST" (Some "hot-body")) = Some "home_feed_homefeed_hot" /\
  py_endswith "_v3" "homefeed_hot" = false /\
  List.hd "" (py_split "_" "homefeed_hot") = "homefeed" /\
  storage_key json_loads_example py_str_example
    (feed_request "POST" (Some "hot-body")) <> Some ("home_feed_" ++ "homefeed").
Proof. vm_compute. repeat split; discriminate. Qed.

(** C2 (amended).  A request matched by the home_feed pattern whose body
    carries no usable category (absent, empty, undecodable, not a dict, or
    without a truthy ["category"]) is still recorded: its bundle is stored
    under the generic key ["home_feed"], replacing any earlier one there,
    and no other entry changes. *)
Theorem C2_uncorrelated_feed_generic_key (json_loads : string -> option py_json)
    (py_str : py_json -> string) (st : capture) (r : request) :
  match_endpoint ENDPOINT_PATTERNS r = Some "home_feed" ->
  no_category_body json_loads (post_data_of r) ->
  storage_key json_loads py_str r = Some "home_feed" /\
  signatures (handle_request json_loads py_str st r) =
    <["home_feed" := bundle_of r]> (signatures st).
Proof.
  intros Hm Hb.
  assert (Hk : storage_key json_loads py_str r = Some "home_feed").
  { rewrite (storage_key_home_feed _ _ _ Hm). f_equal.
    unfold home_feed_key. destruct (post_data_of r) as [pd|]; [|reflexivity].
    destruct pd as [|a pd']; [reflexivity|]. cbn [py_truthy_str].
    destruct Hb as [Hb|Hb]; [discriminate|].
    destruct (json_loads (String a pd')) as [[| | | | |kv]|]; try reflexivity.
    destruct (dict_get "category" kv) as [c|]; [|reflexivity].
    now rewrite Hb. }
  split; [exact Hk|]. unfold handle_request. now rewrite Hk.
Qed.

Lemma C2_witness :
  signatures (handle_request json_loads_example py_str_example capture_init
                (feed_request "POST" (Some "nocat-body"))) =
  <["home_feed" := bundle_of (feed_request "POST" (Some "nocat-body"))]> ∅.
Proof.
  refine (proj2 (C2_uncorrelated_feed_generic_key json_loads_example
    py_str_example capture_init (feed_request "POST" (Some "nocat-body")) _ _)).
  - reflexivity.
  - simpl. right. exact I.
Defined.

(** C2 as stated fails: a GET to the home_feed endpoint (no body) still
    adds a bundle to the signature map. *)
Lemma C2_counterexample :
  signatures (handle_request json_loads_example py_str_example capture_init
                (feed_request "GET" None)) !! "home_feed" =
    Some (bundle_of (feed_request "GET" None)) /\
  signatures capture_init !! "home_feed" = None.
Proof. split; vm_compute; reflexivity. Qed.

(** ** Signature map and [api_signatures] upserts *)

Lemma handle_request_other_keys (json_loads : string -> option py_json)
    (py_str : py_json -> string) (st : capture) (r : request) (k : string) :
  Some k <> storage_key json_loads py_str r ->
  signatures (handle_request json_loads py_str st r) !! k = signatures st !! k.
Proof.
  intros Hk. unfold handle_request.
  destruct (storage_key json_loads py_str r) as [k0|] eqn:E; [|reflexivity].
  simpl. rewrite lookup_insert_ne; [reflexivity|congruence].
Qed.

Lemma handle_request_key (json_loads : string -> option py_json)
    (py_str : py_json -> string) (st : capture) (r : request) (k : string) :
  storage_key json_loads py_str r = Some k ->
  signatures (handle_request json_loads py_str st r) !! k = Some (bundle_of r).
Proof.
  intros Hk. unfold handle_request. rewrite Hk. simpl. apply lookup_insert_eq.
Qed.

Lemma save_fold_lookup (now : Z) (k : string) :
  forall (l : list (string * sig_bundle)) (coll : gmap string sig_doc) saved,
  NoDup l.*1 ->
  (fold_left (fun acc kv =>
      (save_signature acc.1 kv.1 kv.2 now, (acc.2 ++ [kv.1])%list))
    l (coll, saved)).1 !! k =
  match (list_to_map l : gmap string sig_bundle) !! k with
  | Some b => Some (sig_doc_of k b now)
  | None => coll !! k
  end.
Proof.
  induction l as [|[k0 b0] l IH]; intros coll saved Hnd; simpl.
  - rewrite lookup_empty. reflexivity.
  - apply NoDup_cons in Hnd as [Hnin Hnd]. rewrite IH by exact Hnd.
    unfold save_signature.
    destruct (decide (k = k0)) as [->|Hne].
    + rewrite (not_elem_of_list_to_map_1 l k0 Hnin), !lookup_insert_eq.
      reflexivity.
    + rewrite !lookup_insert_ne by congruence. reflexivity.
Qed.

Lemma save_all_signatures_lookup (coll : gmap string sig_doc) (st : capture)
    (now : Z) (k : string) :
  (save_all_signatures coll st now).1 !! k =
  match signatures st !! k with
  | Some b => Some (sig_doc_of k b now)
  | None => coll !! k
  end.
Proof.
  unfold save_all_signatures.
  rewrite save_fold_lookup by apply NoDup_fst_map_to_list.
  now rewrite list_to_map_to_list.
Qed.

(** C3.  One observation changes the signature map at its own key only;
    after [r1] then [r2] deriving the same key [k], the map holds exactly
    [r2]'s bundle at [k], and so does the [api_signatures] collection after
    [save_all_signatures] (also when the map was already saved after
    [r1]). *)
Theorem C3_observe_upsert (json_loads : string -> option py_json)
    (py_str : py_json -> string) (st : capture) (r1 r2 : request) (k : string)
    (coll : gmap string sig_doc) (now1 now : Z) :
  storage_key json_loads py_str r1 = Some k ->
  storage_key json_loads py_str r2 = Some k ->
  (forall (st' : capture) (r : request) (k' : string),
     Some k' <> storage_key json_loads py_str r ->
     signatures (handle_request json_loads py_str st' r) !! k' = signatures st' !! k') /\
  signatures (observe_all json_loads py_str st [r1; r2]) !! k = Some (bundle_of r2) /\
  (save_all_signatures coll (observe_all json_loads py_str st [r1; r2]) now).1 !! k =
    Some (sig_doc_of k (bundle_of r2) now) /\
  (save_all_signatures
     (save_all_signatures coll (observe_all json_loads py_str st [r1]) now1).1
     (observe_all json_loads py_str st [r1; r2]) now).1 !! k =
    Some (sig_doc_of k (bundle_of r2) now).
Proof.
  intros H1 H2.
  assert (Hm : signatures (observe_all json_loads py_str st [r1; r2]) !! k =
               Some (bundle_of r2)) by (apply handle_request_key; exact H2).
  split; [|split; [exact Hm|split]].
  - intros st' r k'. apply handle_request_other_keys.
  - now rewrite save_all_signatures_lookup, Hm.
  - now rewrite save_all_signatures_lookup, Hm.
Qed.

Lemma C3_witness :
  signatures (observe_all json_loads_example py_str_example capture_init
    [feed_request "POST" (Some "fashion-body"); feed_request_resigned])
    !! "home_feed_fashion" =
  Some (bundle_of feed_request_resigned) /\
  bundle_of (feed_request "POST" (Some "fashion-body")) <>
  bundle_of feed_request_resigned.
Proof.
  split.
  - refine (proj1 (proj2 (C3_observe_upsert json_loads_example py_str_example
      capture_init (feed_request "POST" (Some "fashion-body"))
      feed_request_resigned "home_feed_fashion" ∅ 0 0 _ _)));
      reflexivity.
  - vm_compute. discriminate.
Defined.

(** ** The [credentials] collection *)

Lemma invalidate_all_none_valid (coll : list cred_doc) :
  List.filter cd_is_valid (invalidate_all coll) = [].
Proof. induction coll; simpl; auto. Qed.

Lemma invalidate_all_all_invalid (coll : list cred_doc) :
  Forall (fun d => cd_is_valid d = false) (invalidate_all coll).
Proof. induction coll; simpl; constructor; auto. Qed.

Lemma save_credentials_seq_snoc (coll : list cred_doc) calls
    (ck : gmap string string) (xsc : string) (now : Z) :
  save_credentials_seq coll (calls ++ [(ck, xsc, now)]) =
  (save_credentials (save_credentials_seq coll calls) ck xsc now).1.
Proof. unfold save_credentials_seq. now rewrite fold_left_app. Qed.

(** C4.  Every [save_credentials] first marks every stored credential
    invalid and then appends the new valid document; hence after any
    non-empty sequence of saves (written [calls ++ [last]]), the only valid
    document is the one saved last. *)
Theorem C4_single_valid_credential (coll : list cred_doc) calls
    (ck : gmap string string) (xsc : string) (now : Z) :
  List.filter cd_is_valid (save_credentials_seq coll (calls ++ [(ck, xsc, now)])) =
    [mk_cred_doc (user_id_of ck) ck xsc now now true] /\
  (forall (coll' : list cred_doc) (ck' : gmap string string) (xsc' : string) (now' : Z),
     (save_credentials coll' ck' xsc' now').1 =
       (invalidate_all coll' ++ [mk_cred_doc (user_id_of ck') ck' xsc' now' now' true])%list /\
     Forall (fun d => cd_is_valid d = false) (invalidate_all coll')).
Proof.
  split.
  - rewrite save_credentials_seq_snoc. unfold save_credentials. simpl.
    rewrite List.filter_app, invalidate_all_none_valid. reflexivity.
  - intros coll' ck' xsc' now'. split; [reflexivity|].
    apply invalidate_all_all_invalid.
Qed.

(** C10.  [save_credentials] returns, and stores in the new document, the
    concatenation of the cookies ["a1"], ["webId"], ["gid"] and
    ["web_session"] in that order, a missing cookie contributing [""]; with
    none of them present the user id is [""]. *)
Theorem C10_user_id_concat (coll : list cred_doc) (ck : gmap string string)
    (xsc : string) (now : Z) :
  (save_credentials coll ck xsc now).2 =
    default "" (ck !! "a1") ++ default "" (ck !! "webId") ++
    default "" (ck !! "gid") ++ default "" (ck !! "web_session") /\
  (exists d, (save_credentials coll ck xsc now).1 = (invalidate_all coll ++ [d])%list /\
             cd_user_id d = (save_credentials coll ck xsc now).2) /\
  (ck !! "a1" = None -> ck !! "webId" = None -> ck !! "gid" = None ->
   ck !! "web_session" = None -> (save_credentials coll ck xsc now).2 = "").
Proof.
  split; [|split].
  - reflexivity.
  - eexists. split; reflexivity.
  - intros H1 H2 H3 H4. simpl. unfold user_id_of. simpl.
    now rewrite H1, H2, H3, H4.
Qed.

(** ** The longest-seen [x-s-common] *)

Lemma update_x_s_common_cases (cur : string) (h : gmap string string) :
  update_x_s_common cur h = cur \/
  (String.length cur < String.length (update_x_s_common cur h) /\
   h !! "x-s-common" = Some (update_x_s_common cur h)).
Proof.
  unfold update_x_s_common.
  destruct (h !! "x-s-common") as [v|] eqn:E; [|now left].
  destruct (Nat.ltb_spec (String.length cur) (String.length v)); [right|left]; auto.
Qed.

Lemma update_x_s_common_length (cur : string) (h : gmap string string) :
  String.length (update_x_s_common cur h) =
  Nat.max (String.length cur)
    (match h !! "x-s-common" with Some v => String.length v | None => 0 end).
Proof.
  unfold update_x_s_common.
  destruct (h !! "x-s-common") as [v|]; [|lia].
  destruct (Nat.ltb_spec (String.length cur) (String.length v)); lia.
Qed.

Lemma observe_all_x_s_common_length (json_loads : string -> option py_json)
    (py_str : py_json -> string) (rs : list request) :
  forall st : capture,
  String.length (x_s_common (observe_all json_loads py_str st rs)) =
  Nat.max (String.length (x_s_common st)) (max_xsc_len rs).
Proof.
  induction rs as [|r rs IH]; intros st; simpl; [lia|].
  rewrite IH.
  assert (Hx : x_s_common (handle_request json_loads py_str st r) =
               update_x_s_common (x_s_common st) (req_headers r)).
  { unfold handle_request. now destruct (storage_key json_loads py_str r). }
  rewrite Hx, update_x_s_common_length. lia.
Qed.

(** C8.  The tracked [x_s_common] starts as [""]; one observation either
    keeps it or replaces it by the request's own [x-s-common] value, which
    is then strictly longer; after any sequence of observations its length
    is the maximum length of the [x-s-common] values observed. *)
Theorem C8_longest_x_s_common (json_loads : string -> option py_json)
    (py_str : py_json -> string) :
  x_s_common capture_init = "" /\
  (forall (st : capture) (r : request),
     x_s_common (handle_request json_loads py_str st r) = x_s_common st \/
     (String.length (x_s_common st) <
        String.length (x_s_common (handle_request json_loads py_str st r)) /\
      req_headers r !! "x-s-common" =
        Some (x_s_common (handle_request json_loads py_str st r)))) /\
  (forall rs : list request,
     String.length (x_s_common (observe_all json_loads py_str capture_init rs)) =
     max_xsc_len rs).
Proof.
  split; [reflexivity|split].
  - intros st r.
    assert (Hx : x_s_common (handle_request json_loads py_str st r) =
                 update_x_s_common (x_s_common st) (req_headers r)).
    { unfold handle_request. now destruct (storage_key json_loads py_str r). }
    rewrite Hx. apply update_x_s_common_cases.
  - intros rs. rewrite observe_all_x_s_common_length. simpl. lia.
Qed.

(** ** [base64_to_ascii] *)

Lemma base64_to_ascii_try_shape (be : qr_backends) (d out : string) :
  base64_to_ascii_try be d = POk out ->
  out = simple_ascii_placeholder \/ exists m, out = render_matrix m.
Proof.
  unfold base64_to_ascii_try. cbn [mbind py_result_mbind].
  destruct (b64decode be d) as [img|e]; simpl; [|discriminate].
  destruct (HAS_PYZBAR be); [|intros [= <-]; now left].
  destruct (zbar_decode be img) as [syms|e]; simpl; [|discriminate].
  destruct syms as [|sym syms]; [intros [= <-]; now left|].
  destruct (HAS_QRCODE be); [|intros [= <-]; now left].
  destruct (utf8_decode be sym) as [txt|e]; simpl; [|discriminate].
  destruct (qr_matrix be txt) as [m|e]; simpl; [|discriminate].
  intros [= <-]. right. now exists m.
Qed.

Lemma base64_to_ascii_try_no_pyzbar (be : qr_backends) (d : string) :
  HAS_PYZBAR be = false ->
  base64_to_ascii_try be d = POk simple_ascii_placeholder \/
  exists e, base64_to_ascii_try be d = PRaise e.
Proof.
  intros H. unfold base64_to_ascii_try. cbn [mbind py_result_mbind].
  destruct (b64decode be d) as [img|e]; simpl; [|right; now exists e].
  rewrite H. now left.
Qed.

(** C7.  [base64_to_ascii] never raises, whatever the input and whatever
    the backends do: it returns the empty-input notice, the placeholder
    block, or a glyph grid rendered from a module matrix; with no pyzbar
    backend a non-empty input always gives the placeholder. *)
Theorem C7_base64_to_ascii_total (be : qr_backends) (s : string) :
  (exists out, base64_to_ascii be s = POk out /\
     (out = "[无法获取二维码]" \/ out = simple_ascii_placeholder \/
      exists m, out = render_matrix m)) /\
  (HAS_PYZBAR be = false -> s <> "" ->
   base64_to_ascii be s = POk simple_ascii_placeholder).
Proof.
  split.
  - unfold base64_to_ascii.
    destruct (String.eqb s ""); [eexists; split; [reflexivity|now left]|].
    match goal with |- context [base64_to_ascii_try be ?d] =>
      destruct (base64_to_ascii_try be d) as [out|e] eqn:E end.
    + exists out. split; [reflexivity|right].
      now apply base64_to_ascii_try_shape in E.
    + eexists. split; [reflexivity|]. right. now left.
  - intros H Hne. unfold base64_to_ascii.
    destruct (String.eqb_spec s ""); [congruence|].
    match goal with |- context [base64_to_ascii_try be ?d] =>
      destruct (base64_to_ascii_try_no_pyzbar be d H) as [E|[e E]] end;
      now rewrite E.
Qed.

(** ** [extract_from_page] *)

Lemma qr_except_cases (pg : qr_page) (a : nat) (e : string) (res : qr_result)
    (waits : list nat) (j : nat) :
  match qr_except pg a e res waits j with
  | StepReturn _ _ => False
  | StepContinue res' waits' =>
      qr_success res' = qr_success res /\
      (waits' = waits \/ (a < QR_MAX_ATTEMPTS - 1 /\
                          waits' = (waits ++ [QR_POLL_INTERVAL_MS])%list))
  | StepRaise _ => a < QR_MAX_ATTEMPTS - 1
  end.
Proof.
  unfold qr_except.
  destruct (Nat.ltb_spec a (QR_MAX_ATTEMPTS - 1)) as [Hlt|Hge].
  - destruct (qp_wait pg a j); [exact Hlt|]. split; [reflexivity|]. right. auto.
  - split; [reflexivity|]. now left.
Qed.

(** Close a goal about the outcome of the [except] branch. *)
Ltac qr_except_step :=
  match goal with
  | |- context [qr_except ?pg ?a ?e ?r ?w ?j] =>
      let Hx := fresh "Hx" in
      pose proof (qr_except_cases pg a e r w j) as Hx;
      destruct (qr_except pg a e r w j); simpl in *; tauto
  end.

Lemma qr_attempt_cases (be : qr_backends) (pg : qr_page) (a : nat)
    (res : qr_result) (waits : list nat) :
  match qr_attempt be pg a res waits with
  | StepReturn res' waits' =>
      qr_success res' = true /\ waits' = waits /\
      valid_src (qr_base64 res') = true /\ qp_src pg a = POk (Some (qr_base64 res'))
  | StepContinue res' waits' =>
      qr_success res' = qr_success res /\
      (waits' = waits \/ (a < QR_MAX_ATTEMPTS - 1 /\
                          waits' = (waits ++ [QR_POLL_INTERVAL_MS])%list))
  | StepRaise _ => a < QR_MAX_ATTEMPTS - 1
  end.
Proof.
  unfold qr_attempt.
  destruct (qp_src pg a) as [[src|]|e] eqn:Hsrc.
  - destruct (valid_src src) eqn:Hv.
    + destruct (base64_to_ascii be src) as [asc|e].
      * simpl. auto.
      * qr_except_step.
    + destruct (Nat.ltb_spec a (QR_MAX_ATTEMPTS - 1)) as [Hlt|Hge].
      * destruct (qp_wait pg a 0) as [e|].
        -- qr_except_step.
        -- split; [reflexivity|]. right. auto.
      * split; [reflexivity|]. now left.
  - destruct (Nat.ltb_spec a (QR_MAX_ATTEMPTS - 1)) as [Hlt|Hge].
    + destruct (qp_wait pg a 0) as [e|].
      * qr_except_step.
      * split; [reflexivity|]. right. auto.
    + split; [reflexivity|]. now left.
  - qr_except_step.
Qed.

Lemma qr_loop_spec (be : qr_backends) (pg : qr_page) :
  forall k a res waits,
  a + k = QR_MAX_ATTEMPTS -> qr_success res = false ->
  Forall (eq QR_POLL_INTERVAL_MS) waits ->
  length waits <= a -> length waits <= QR_MAX_ATTEMPTS - 1 ->
  match qr_loop be pg k a res waits with
  | QrReturned res' n waits' =>
      n <= QR_MAX_ATTEMPTS /\ Forall (eq QR_POLL_INTERVAL_MS) waits' /\
      length waits' < n /\
      (qr_success res' = true ->
       valid_src (qr_base64 res') = true /\
       exists a', a' < QR_MAX_ATTEMPTS /\ qp_src pg a' = POk (Some (qr_base64 res'))) /\
      (qr_success res' = false -> n = QR_MAX_ATTEMPTS)
  | QrRaised a' _ => a' < QR_MAX_ATTEMPTS - 1
  end.
Proof.
  induction k as [|k IH]; intros a res waits Hak Hs Hw Hl1 Hl2; simpl.
  - rewrite Nat.add_0_r in Hak. subst a. unfold QR_MAX_ATTEMPTS in *.
    split; [lia|]. split; [assumption|]. split; [lia|].
    split; [intros; congruence|reflexivity].
  - pose proof (qr_attempt_cases be pg a res waits) as Hc.
    destruct (qr_attempt be pg a res waits) as [res' waits'|res' waits'|e].
    + destruct Hc as (Hs' & -> & Hv & Hsrc). unfold QR_MAX_ATTEMPTS in *.
      split; [lia|]. split; [assumption|]. split; [lia|]. split.
      * intros _. split; [exact Hv|]. exists a. split; [lia|exact Hsrc].
      * congruence.
    + destruct Hc as (Hs' & [->|[Hlt ->]]); unfold QR_MAX_ATTEMPTS in *.
      * apply IH; unfold QR_MAX_ATTEMPTS; [lia|congruence|assumption|lia|lia].
      *
        apply IH; unfold QR_MAX_ATTEMPTS; [lia|congruence| |rewrite length_app; simpl; lia
                                          |rewrite length_app; simpl; lia].
        apply Forall_app; split; [assumption|]. constructor; auto.
    + exact Hc.
Qed.

(** C9.  [extract_from_page] makes at most [QR_MAX_ATTEMPTS] attempts and
    only sleeps [QR_POLL_INTERVAL_MS] between attempts (fewer sleeps than
    attempts); it reports success only with a [src] read at some attempt
    that starts with ["data:image"] and is longer than 2000 characters; a
    failed result is returned only once all attempts are used, and an
    exception can escape only before the last attempt. *)
Theorem C9_extract_from_page_budget (be : qr_backends) (pg : qr_page) :
  match extract_from_page be pg with
  | QrReturned res n waits =>
      n <= QR_MAX_ATTEMPTS /\ Forall (eq QR_POLL_INTERVAL_MS) waits /\
      length waits < n /\
      (qr_success res = true ->
       py_startswith "data:image" (qr_base64 res) = true /\
       2000 < String.length (qr_base64 res) /\
       exists a, a < QR_MAX_ATTEMPTS /\ qp_src pg a = POk (Some (qr_base64 res))) /\
      (qr_success res = false -> n = QR_MAX_ATTEMPTS)
  | QrRaised a _ => a < QR_MAX_ATTEMPTS - 1
  end.
Proof.
  pose proof (qr_loop_spec be pg QR_MAX_ATTEMPTS 0 qr_result_init []
                eq_refl eq_refl ltac:(constructor) (le_n 0) (Nat.le_0_l _)) as H.
  unfold extract_from_page.
  destruct (qr_loop be pg QR_MAX_ATTEMPTS 0 qr_result_init []) as [res n waits|a e];
    [|exact H].
  destruct H as (H1 & H2 & H3 & H4 & H5).
  split; [exact H1|]. split; [exact H2|]. split; [exact H3|].
  split; [|exact H5].
  intros Hs. destruct (H4 Hs) as [Hv Ha]. unfold valid_src in Hv.
  apply andb_true_iff in Hv as [Hp Hl].
  split; [exact Hp|]. split; [now apply Nat.ltb_lt|exact Ha].
Qed.

(** ** [wait_for_login_complete] *)

Lemma login_loop_no_signal (env : login_env) (initial : option string) :
  forall n i res elapsed,
  (forall j, i <= j < i + n -> no_signal initial (le_poll env j)) ->
  login_loop env initial n i res elapsed =
    LoginReturned res (elapsed + n * login_poll_interval).
Proof.
  induction n as [|n IH]; intros i res elapsed Hns; simpl.
  - now rewrite Nat.add_0_r.
  - destruct (Hns i ltac:(lia)) as (Hw & Hu & Ha & Hc).
    rewrite Hw, Hu, Ha, Hc.
    rewrite IH by (intros j Hj; apply Hns; lia).
    f_equal. unfold login_poll_interval. lia.
Qed.

(** C6 (amended).  If during the [timeout * 1000 / 2000] polls every sleep
    returns normally and no completion signal fires (no post-login URL, no
    visible avatar, no changed non-empty [web_session]), the function
    returns [success = false] with the status left at its initial value
    ["waiting"] and no cookies, having slept exactly
    [timeout * 1000 / 2000 * 2000] ms, which is at most [timeout] seconds. *)
Theorem C6_login_no_signal_result (env : login_env) (timeout : nat) :
  (forall j, j < timeout * 1000 / login_poll_interval ->
     no_signal (web_session_of (le_initial_cookies env)) (le_poll env j)) ->
  wait_for_login_complete env timeout =
    LoginReturned (mk_login_result false [] "waiting" None)
      (timeout * 1000 / login_poll_interval * login_poll_interval) /\
  timeout * 1000 / login_poll_interval * login_poll_interval <= timeout * 1000.
Proof.
  intros Hns. split.
  - unfold wait_for_login_complete.
    rewrite login_loop_no_signal by (intros j Hj; apply Hns; lia).
    reflexivity.
  - rewrite Nat.mul_comm. apply Nat.Div0.mul_div_le.
Qed.

Lemma C6_witness :
  wait_for_login_complete idle_login_env 4 =
    LoginReturned (mk_login_result false [] "waiting" None) 4000.
Proof.
  refine (proj1 (C6_login_no_signal_result idle_login_env 4 _)).
  intros j _. repeat split.
Defined.

(** C6 as stated fails: with no completion signal the result's status is
    ["waiting"], not a timed-out status. *)
Lemma C6_counterexample :
  wait_for_login_complete idle_login_env 4 =
    LoginReturned (mk_login_result false [] "waiting" None) 4000 /\
  "waiting" <> "TimedOut".
Proof. split; [vm_compute; reflexivity | discriminate]. Qed.

(** ** [traverse_feed_channels] *)

Lemma traverse_channel_no_expect_response (env : traversal_env) (c ch : string) :
  ~ In (EvExpectResponse ch) (traverse_channel env c).
Proof.
  unfold traverse_channel. intros Hc.
  destruct (assoc_get c CHANNEL_MAP); [|contradiction].
  destruct (te_tab_visible env c) as [[|]|e];
    [destruct (te_raises_at env c) as [[]|]| |]; simpl in Hc;
    intuition congruence.
Qed.

Lemma traverse_no_expect_response (env : traversal_env) (ch : string) :
  ~ In (EvExpectResponse ch) (traverse_feed_channels env).
Proof.
  unfold traverse_feed_channels. intros H.
  assert (Hl : ~ In (EvExpectResponse ch)
                 (flat_map (traverse_channel env) FEED_CHANNELS)).
  { intros Hl. apply in_flat_map in Hl as [c [_ Hc]].
    exact (traverse_channel_no_expect_response env c ch Hc). }
  destruct (py_in "/explore" (te_page_url env)); [exact (Hl H)|].
  destruct (te_goto_raises env); simpl in H; [intuition congruence|].
  destruct (te_idle_raises env); [simpl in H; intuition congruence|].
  destruct H as [H|[H|H]]; [discriminate|discriminate|exact (Hl H)].
Qed.

(** C5 (code_bug).  [traverse_feed_channels] never registers a response
    listener ([page.expect_response]) for any channel, and it records a
    channel as captured after fixed sleeps whether or not a matching
    response arrived: on [silent_feed_env] no response ever matches, yet
    ["穿搭"] is reported captured right after its click. *)
Theorem C5_traversal_captures_without_listening :
  (forall (env : traversal_env) (ch : string),
     ~ In (EvExpectResponse ch) (traverse_feed_channels env)) /\
  te_response_arrives silent_feed_env "穿搭" = false /\
  firstn 8 (traverse_channel silent_feed_env "穿搭") =
    [EvLocate "穿搭"; EvClick "穿搭"; EvWait 2000; EvScroll 500; EvWait 1000;
     EvWaitLoadState "networkidle"; EvCaptured "穿搭"; EvWait 1500] /\
  In (EvCaptured "穿搭") (traverse_feed_channels silent_feed_env).
Proof.
  split; [exact traverse_no_expect_response|].
  split; [reflexivity|]. split; [reflexivity|].
  vm_compute. tauto.
Qed.

(* ================================================================== *)
(** * Further properties of the package *)

(** ** [invalidate_all_credentials] *)

(** X1.  [invalidate_all_credentials] reports as modified exactly the
    documents that were valid, keeps every document (same user ids, same
    count) with none left valid, and a second call reports 0. *)
Theorem invalidate_all_credentials_spec (coll : list cred_doc) :
  (invalidate_all_credentials coll).2 = List.length (List.filter cd_is_valid coll) /\
  List.filter cd_is_valid (invalidate_all_credentials coll).1 = [] /\
  map cd_user_id (invalidate_all_credentials coll).1 = map cd_user_id coll /\
  (invalidate_all_credentials (invalidate_all_credentials coll).1).2 = 0.
Proof.
  unfold invalidate_all_credentials. simpl.
  split; [reflexivity|]. split; [apply invalidate_all_none_valid|].
  split.
  - unfold invalidate_all. rewrite map_map. reflexivity.
  - rewrite invalidate_all_none_valid. reflexivity.
Qed.

(** ** [QrCodeStatusMonitor] *)

(** X2.  A response that is not a 200 reply from the QR status URL, or
    whose body is not a JSON object (including one [response.json()]
    fails on), leaves the monitor unchanged. *)
Theorem monitor_ignores_foreign_responses (m : qr_monitor) (r : response) :
  (py_in QRCODE_STATUS_URL (resp_url r) = false \/ resp_status r <> 200%Z \/
   forall kv, resp_json r <> Some (JDict kv)) ->
  monitor_handle m r = m.
Proof.
  intros H. unfold monitor_handle.
  destruct H as [H|[H|H]].
  - now rewrite H.
  - destruct (Z.eqb_spec (resp_status r) 200); [congruence|].
    now rewrite andb_false_r.
  - destruct (_ && _); [|reflexivity].
    destruct (resp_json r) as [[| | | | |kv]|]; try reflexivity.
    exfalso. exact (H kv eq_refl).
Qed.

Lemma monitor_ignores_foreign_responses_witness :
  monitor_handle qr_monitor_init
    (mk_response "https://edith.xiaohongshu.com/api/sns/web/v1/homefeed" 200 None) =
  qr_monitor_init.
Proof.
  apply monitor_ignores_foreign_responses. left. reflexivity.
Defined.

Lemma monitor_handle_wf (m : qr_monitor) (r : response) :
  monitor_wf m -> monitor_wf (monitor_handle m r).
Proof.
  intros Hwf. unfold monitor_handle.
  destruct (_ && _); [|exact Hwf].
  destruct (resp_json r) as [[| | | | |data]|]; try exact Hwf.
  destruct (_ && dict_has "data" data); [|exact Hwf].
  destruct (dict_get "data" data) as [[| | | | |sd]|] eqn:Hd; try exact Hwf.
  right. exists data, sd.
  destruct (_ && _); simpl; (split; [reflexivity|split; [exact Hd|]]);
    apply last_snoc.
Qed.

Lemma monitor_run_wf (rs : list response) :
  forall m, monitor_wf m -> monitor_wf (monitor_run m rs).
Proof.
  induction rs as [|r rs IH]; intros m Hm; [exact Hm|].
  apply IH. now apply monitor_handle_wf.
Qed.

(** X3.  On any monitor fed a sequence of responses, [get_code_status]
    never raises: it is -1 while no response was accepted (no history),
    and otherwise it is the [code_status] of the last accepted response,
    which is also the last history entry, except that an absent
    [code_status] is reported as -1 while the history records [None]. *)
Theorem monitor_code_status_tracks_history (rs : list response) :
  let m := monitor_run qr_monitor_init rs in
  (status_history m = [] /\ latest_status m = None /\
   get_code_status m = POk (JNum (-1))) \/
  (exists sd,
     last (status_history m) = Some (default JNull (dict_get "code_status" sd)) /\
     get_code_status m = POk (default (JNum (-1)) (dict_get "code_status" sd))).
Proof.
  simpl.
  destruct (monitor_run_wf rs qr_monitor_init (or_introl (conj eq_refl (conj eq_refl eq_refl))))
    as [(H1 & H2 & _)|(data & sd & H1 & H2 & H3)].
  - left. unfold get_code_status. rewrite H1. auto.
  - right. exists sd. split; [exact H3|].
    unfold get_code_status. rewrite H1.
    destruct data as [|kv data]; [discriminate|]. simpl negb.
    cbv iota. rewrite H2. reflexivity.
Qed.

(** X4.  A 200 reply from the QR status URL whose JSON has a truthy
    [success] and a [data] object with [code_status] 2 makes
    [is_logged_in] true, whatever the monitor saw before; when that
    object has a [login_info] key, it becomes the monitor's [login_info]. *)
Theorem monitor_code_2_logged_in (m : qr_monitor) (r : response)
    (data sd : list (string * py_json)) :
  py_in QRCODE_STATUS_URL (resp_url r) = true ->
  resp_status r = 200%Z ->
  resp_json r = Some (JDict data) ->
  py_json_truthy (default JNull (dict_get "success" data)) = true ->
  dict_get "data" data = Some (JDict sd) ->
  dict_get "code_status" sd = Some (JNum 2) ->
  is_logged_in (monitor_handle m r) = POk true /\
  (dict_has "login_info" sd = true ->
   login_info (monitor_handle m r) = dict_get "login_info" sd).
Proof.
  intros Hu Hs Hj Hsucc Hd Hc.
  assert (Hm : monitor_handle m r =
    if dict_has "login_info" sd
    then mk_qr_monitor (Some data) (dict_get "login_info" sd)
           (status_history m ++ [JNum 2])%list
    else mk_qr_monitor (Some data) (login_info m)
           (status_history m ++ [JNum 2])%list).
  { unfold monitor_handle. rewrite Hu, Hs, Hj, Hsucc. simpl.
    unfold dict_has. rewrite Hd. simpl. rewrite Hc. reflexivity. }
  assert (Hl : is_logged_in (mk_qr_monitor (Some data) (dict_get "login_info" sd)
                 (status_history m ++ [JNum 2])%list) = POk true /\
               is_logged_in (mk_qr_monitor (Some data) (login_info m)
                 (status_history m ++ [JNum 2])%list) = POk true).
  { unfold is_logged_in, get_code_status. simpl.
    destruct data as [|kv data]; [discriminate|]. simpl negb. cbv iota.
    rewrite Hd, Hc. split; reflexivity. }
  rewrite Hm. destruct (dict_has "login_info" sd).
  - split; [apply Hl|reflexivity].
  - split; [apply Hl|discriminate].
Qed.

Lemma monitor_code_2_logged_in_witness :
  is_logged_in (monitor_handle qr_monitor_init qr_status_ok_response) = POk true /\
  (dict_has "login_info" [("code_status", JNum 2);
                          ("login_info", JDict [("user_id", JStr "u1")])] = true ->
   login_info (monitor_handle qr_monitor_init qr_status_ok_response) =
   dict_get "login_info" [("code_status", JNum 2);
                          ("login_info", JDict [("user_id", JStr "u1")])]).
Proof.
  apply (monitor_code_2_logged_in qr_monitor_init qr_status_ok_response
           [("success", JBool true);
            ("data", JDict [("code_status", JNum 2);
                            ("login_info", JDict [("user_id", JStr "u1")])])]
           [("code_status", JNum 2);
            ("login_info", JDict [("user_id", JStr "u1")])]);
    vm_compute; reflexivity.
Defined.

(** ** [base64_to_ascii] input cleaning *)

(** X5.  [base64_to_ascii] renders only the segment between the first
    and the second comma of a data URI: for a header [p] and a segment
    [seg] without commas, followed by nothing or by a comma and anything,
    the result is that of decoding [seg] alone (with the placeholder when
    decoding raises). *)
Theorem base64_to_ascii_strips_header (be : qr_backends) (p seg tail : string) :
  py_in "," p = false ->
  py_in "," seg = false ->
  (tail = EmptyString \/ exists t, tail = String ","%char t) ->
  base64_to_ascii be (p ++ "," ++ seg ++ tail) =
  match base64_to_ascii_try be seg with
  | POk s => POk s
  | PRaise _ => POk simple_ascii_placeholder
  end.
Proof.
  intros Hp Hs Ht. unfold base64_to_ascii.
  change ("," ++ seg ++ tail) with (String ","%char (seg ++ tail)).
  assert (Hne : String.eqb (p ++ String ","%char (seg ++ tail)) "" = false)
    by (destruct p; reflexivity).
  rewrite Hne, py_in_single_app.
  destruct (py_split_second ","%char p seg tail Hp Hs Ht) as [rest ->].
  reflexivity.
Qed.

Lemma base64_to_ascii_strips_header_witness :
  base64_to_ascii no_backends ("data:image/png;base64" ++ "," ++ "iVBORw0KGgo" ++ "") =
  match base64_to_ascii_try no_backends "iVBORw0KGgo" with
  | POk s => POk s
  | PRaise _ => POk simple_ascii_placeholder
  end.
Proof.
  apply base64_to_ascii_strips_header; [reflexivity|reflexivity|left; reflexivity].
Defined.

(** ** [extract_from_page]: first valid image and exhaustion *)

Lemma base64_to_ascii_returns (be : qr_backends) (s : string) :
  exists out, base64_to_ascii be s = POk out.
Proof.
  unfold base64_to_ascii. destruct (String.eqb s ""); [eauto|].
  destruct (base64_to_ascii_try be _); eauto.
Qed.

(** An attempt before the last one that reads no usable [src] (it raises,
    is missing, or is not a long data URI) sleeps once and goes on with
    the result unchanged, when that sleep returns. *)
Lemma qr_attempt_invalid (be : qr_backends) (pg : qr_page) (a : nat)
    (res : qr_result) (waits : list nat) :
  a < QR_MAX_ATTEMPTS - 1 -> src_valid_at pg a = false -> qp_wait pg a 0 = None ->
  qr_attempt be pg a res waits =
  StepContinue res (waits ++ [QR_POLL_INTERVAL_MS])%list.
Proof.
  intros Ha Hv Hw. unfold src_valid_at in Hv. unfold qr_attempt.
  assert (Hlt : Nat.ltb a (QR_MAX_ATTEMPTS - 1) = true) by (apply Nat.ltb_lt; exact Ha).
  destruct (qp_src pg a) as [[src|]|e].
  - rewrite Hv, Hlt, Hw. reflexivity.
  - rewrite Hlt, Hw. reflexivity.
  - unfold qr_except. rewrite Hlt, Hw. reflexivity.
Qed.

Lemma qr_loop_skip_invalid (be : qr_backends) (pg : qr_page) :
  forall i k a res waits,
  a + i <= QR_MAX_ATTEMPTS - 1 ->
  (forall j, a <= j < a + i -> src_valid_at pg j = false /\ qp_wait pg j 0 = None) ->
  qr_loop be pg (i + k) a res waits =
  qr_loop be pg k (a + i) res (waits ++ repeat QR_POLL_INTERVAL_MS i)%list.
Proof.
  induction i as [|i IH]; intros k a res waits Hai Hj.
  - rewrite Nat.add_0_r, app_nil_r. reflexivity.
  - simpl. destruct (Hj a) as [Hv Hw]; [lia|].
    rewrite qr_attempt_invalid by (try lia; assumption).
    rewrite IH by (try lia; intros j Hj'; apply Hj; lia).
    rewrite <- app_assoc. f_equal. lia.
Qed.

(** X6.  [extract_from_page] returns at the first attempt [i] whose [src]
    is a data URI longer than 2000 characters, provided the earlier
    attempts read no such [src] and their sleeps return: the result has
    [success] true, that [src] as [base64], its [base64_to_ascii]
    rendering, no error, after [i+1] attempts and [i] sleeps of
    [QR_POLL_INTERVAL_MS]. *)
Theorem extract_from_page_first_valid (be : qr_backends) (pg : qr_page)
    (i : nat) (src : string) :
  i < QR_MAX_ATTEMPTS ->
  (forall j, j < i -> src_valid_at pg j = false /\ qp_wait pg j 0 = None) ->
  qp_src pg i = POk (Some src) -> valid_src src = true ->
  exists asc, base64_to_ascii be src = POk asc /\
    extract_from_page be pg =
    QrReturned (mk_qr_result true src asc None) (S i)
      (repeat QR_POLL_INTERVAL_MS i).
Proof.
  intros Hi Hj Hs Hv.
  destruct (base64_to_ascii_returns be src) as [asc Hasc].
  exists asc. split; [exact Hasc|].
  unfold extract_from_page.
  replace QR_MAX_ATTEMPTS with (i + S (QR_MAX_ATTEMPTS - 1 - i))
    by (unfold QR_MAX_ATTEMPTS in *; lia).
  rewrite qr_loop_skip_invalid
    by (try (unfold QR_MAX_ATTEMPTS in *; lia); intros j Hj'; apply Hj; lia).
  simpl. unfold qr_attempt. rewrite Hs, Hv, Hasc. reflexivity.
Qed.

(** X7.  When no attempt reads a data URI longer than 2000 characters and
    every sleep returns, [extract_from_page] returns after all
    [QR_MAX_ATTEMPTS] attempts and [QR_MAX_ATTEMPTS - 1] sleeps a result
    with [success] false, empty [base64] and [ascii], and as [error] the
    exception of the last attempt if it raised one (none otherwise). *)
Theorem extract_from_page_exhausted (be : qr_backends) (pg : qr_page) :
  (forall j, j < QR_MAX_ATTEMPTS -> src_valid_at pg j = false) ->
  (forall j, j < QR_MAX_ATTEMPTS - 1 -> qp_wait pg j 0 = None) ->
  extract_from_page be pg =
  QrReturned
    (mk_qr_result false "" ""
       (match qp_src pg (QR_MAX_ATTEMPTS - 1) with
        | PRaise e => Some e
        | POk _ => None
        end))
    QR_MAX_ATTEMPTS (repeat QR_POLL_INTERVAL_MS (QR_MAX_ATTEMPTS - 1)).
Proof.
  intros Hv Hw. unfold extract_from_page.
  change QR_MAX_ATTEMPTS with ((QR_MAX_ATTEMPTS - 1) + 1) at 1.
  rewrite qr_loop_skip_invalid.
  2: { unfold QR_MAX_ATTEMPTS; lia. }
  2: { intros j Hj. split; [apply Hv|apply Hw]; unfold QR_MAX_ATTEMPTS in *; lia. }
  simpl. pose proof (Hv 29 ltac:(unfold QR_MAX_ATTEMPTS; lia)) as H29.
  unfold src_valid_at in H29. unfold qr_attempt.
  destruct (qp_src pg 29) as [[s|]|e]; simpl.
  - rewrite H29. reflexivity.
  - reflexivity.
  - reflexivity.
Qed.

Lemma extract_from_page_first_valid_witness :
  exists asc, base64_to_ascii no_backends long_qr_src = POk asc /\
    extract_from_page no_backends page_ready_at_2 =
    QrReturned (mk_qr_result true long_qr_src asc None) 3
      (repeat QR_POLL_INTERVAL_MS 2).
Proof.
  apply (extract_from_page_first_valid no_backends page_ready_at_2 2 long_qr_src).
  - unfold QR_MAX_ATTEMPTS. lia.
  - intros j Hj. destruct j as [|[|j]]; [split; reflexivity|split; reflexivity|lia].
  - reflexivity.
  - vm_compute. reflexivity.
Defined.

Lemma extract_from_page_exhausted_witness :
  extract_from_page no_backends page_never_ready =
  QrReturned (mk_qr_result false "" "" (Some "Timeout 5000ms exceeded"))
    QR_MAX_ATTEMPTS (repeat QR_POLL_INTERVAL_MS (QR_MAX_ATTEMPTS - 1)).
Proof.
  apply (extract_from_page_exhausted no_backends page_never_ready).
  - intros j _. unfold src_valid_at. simpl. destruct (Nat.eqb j 29); reflexivity.
  - intros j _. reflexivity.
Defined.

(** ** [wait_for_login_complete]: confirmation and interrupted sleeps *)

Lemma login_loop_skip (env : login_env) (initial : option string) :
  forall i k j0 res elapsed,
  (forall j, j0 <= j < j0 + i -> no_signal initial (le_poll env j)) ->
  login_loop env initial (i + k) j0 res elapsed =
  login_loop env initial k (j0 + i) res (elapsed + i * login_poll_interval).
Proof.
  induction i as [|i IH]; intros k j0 res elapsed Hns; simpl.
  - now rewrite Nat.add_0_r, Nat.add_0_r.
  - destruct (Hns j0 ltac:(lia)) as (Hw & Hu & Ha & Hc).
    rewrite Hw, Hu, Ha, Hc.
    rewrite IH by (intros j Hj; apply Hns; lia).
    unfold login_poll_interval. f_equal; lia.
Qed.

Lemma login_loop_split (env : login_env) (timeout i : nat) :
  i < timeout * 1000 / login_poll_interval ->
  (forall j, j < i ->
     no_signal (web_session_of (le_initial_cookies env)) (le_poll env j)) ->
  login_loop env (web_session_of (le_initial_cookies env))
    (timeout * 1000 / login_poll_interval) 0 login_result_init 0 =
  login_loop env (web_session_of (le_initial_cookies env))
    (S (timeout * 1000 / login_poll_interval - 1 - i)) i login_result_init
    (i * login_poll_interval).
Proof.
  intros Hi Hns.
  replace (timeout * 1000 / login_poll_interval)
    with (i + S (timeout * 1000 / login_poll_interval - 1 - i)) at 1 by lia.
  rewrite login_loop_skip by (intros j Hj; apply Hns; lia).
  reflexivity.
Qed.

(** X8.  If the first completion signal (post-login URL, visible avatar,
    or a changed non-empty [web_session]) fires at poll [i], within the
    [timeout * 1000 / 2000] polls and with every earlier sleep returning,
    then: when the settle wait and the final cookie read return,
    [wait_for_login_complete] reports success with status ["confirmed"],
    no error, the cookies read after the settle wait, and has slept
    [(i + 1) * 2000] ms of polling plus the 2000 ms settle wait; when one
    of them raises, the exception escapes the function. *)
Theorem wait_for_login_confirmed (env : login_env) (timeout i : nat) :
  i < timeout * 1000 / login_poll_interval ->
  (forall j, j < i ->
     no_signal (web_session_of (le_initial_cookies env)) (le_poll env j)) ->
  po_wait (le_poll env i) = WaitOk ->
  (py_in "/user/profile/" (po_url (le_poll env i)) ||
   po_avatar_visible (le_poll env i) ||
   session_changed (web_session_of (le_initial_cookies env))
     (web_session_of (po_cookies (le_poll env i)))) = true ->
  wait_for_login_complete env timeout =
  match le_settle_raises env with
  | None =>
      LoginReturned (mk_login_result true (le_final_cookies env) "confirmed" None)
        (S i * login_poll_interval + 2000)
  | Some e => LoginRaised e
  end.
Proof.
  intros Hi Hns Hw Hsig. unfold wait_for_login_complete.
  rewrite (login_loop_split env timeout i Hi Hns). simpl.
  rewrite Hw.
  assert (He : i * login_poll_interval + login_poll_interval =
               login_poll_interval + i * login_poll_interval) by lia.
  destruct (py_in "/user/profile/" (po_url (le_poll env i))); simpl;
    [destruct (le_settle_raises env); [reflexivity|rewrite He; reflexivity]|].
  destruct (po_avatar_visible (le_poll env i)); simpl;
    [destruct (le_settle_raises env); [reflexivity|rewrite He; reflexivity]|].
  simpl in Hsig. rewrite Hsig. simpl.
  destruct (le_settle_raises env); [reflexivity|rewrite He; reflexivity].
Qed.

Lemma wait_for_login_confirmed_witness :
  wait_for_login_complete profile_login_env 10 =
  LoginReturned (mk_login_result true [("web_session", "040069b5"); ("a1", "18c2")]
                   "confirmed" None)
    (S 1 * login_poll_interval + 2000) /\
  wait_for_login_complete
    (mk_login_env [] (le_poll profile_login_env) []
       (Some "Target page, context or browser has been closed")) 10 =
  LoginRaised "Target page, context or browser has been closed".
Proof.
  split.
  - apply (wait_for_login_confirmed profile_login_env 10 1).
    + vm_compute. lia.
    + intros j Hj. destruct j as [|j]; [|lia].
      split; [reflexivity|split; [reflexivity|split; reflexivity]].
    + reflexivity.
    + reflexivity.
  - apply (wait_for_login_confirmed
             (mk_login_env [] (le_poll profile_login_env) []
                (Some "Target page, context or browser has been closed")) 10 1).
    + vm_compute. lia.
    + intros j Hj. destruct j as [|j]; [|lia].
      split; [reflexivity|split; [reflexivity|split; reflexivity]].
    + reflexivity.
    + reflexivity.
Defined.

(** X9.  If the sleep of poll [i] raises, within the polls and after
    [i] polls without a signal: an error mentioning a closed target ends
    the wait with success false, status ["cancelled"], the error
    ["Browser was closed by user"], no cookies and [i * 2000] ms slept;
    any other error propagates out of [wait_for_login_complete]. *)
Theorem wait_for_login_interrupted (env : login_env) (timeout i : nat) :
  i < timeout * 1000 / login_poll_interval ->
  (forall j, j < i ->
     no_signal (web_session_of (le_initial_cookies env)) (le_poll env j)) ->
  (forall m, po_wait (le_poll env i) = WaitTargetClosed m ->
     wait_for_login_complete env timeout =
     LoginReturned (mk_login_result false [] "cancelled"
                      (Some "Browser was closed by user"))
       (i * login_poll_interval)) /\
  (forall e, po_wait (le_poll env i) = WaitOther e ->
     wait_for_login_complete env timeout = LoginRaised e).
Proof.
  intros Hi Hns. unfold wait_for_login_complete.
  rewrite (login_loop_split env timeout i Hi Hns). simpl.
  split.
  - intros m Hw. rewrite Hw. reflexivity.
  - intros e Hw. rewrite Hw. reflexivity.
Qed.

Lemma wait_for_login_interrupted_witness :
  (forall m, po_wait (le_poll closed_login_env 1) = WaitTargetClosed m ->
     wait_for_login_complete closed_login_env 10 =
     LoginReturned (mk_login_result false [] "cancelled"
                      (Some "Browser was closed by user"))
       (1 * login_poll_interval)) /\
  (forall e, po_wait (le_poll closed_login_env 1) = WaitOther e ->
     wait_for_login_complete closed_login_env 10 = LoginRaised e).
Proof.
  apply (wait_for_login_interrupted closed_login_env 10 1).
  - vm_compute. lia.
  - intros j Hj. destruct j as [|j]; [|lia].
    split; [reflexivity|split; [reflexivity|split; reflexivity]].
Defined.

(** ** [traverse_feed_channels]: coverage of the channels *)

Lemma located_channels_app (t1 t2 : list driver_event) :
  located_channels (t1 ++ t2) = (located_channels t1 ++ located_channels t2)%list.
Proof.
  induction t1 as [|ev t1 IH]; [reflexivity|].
  destruct ev; simpl; rewrite ?IH; reflexivity.
Qed.

Lemma traverse_channel_located (env : traversal_env) (ch : string) :
  assoc_get ch CHANNEL_MAP <> None ->
  located_channels (traverse_channel env ch) = [ch].
Proof.
  intros H. unfold traverse_channel.
  destruct (assoc_get ch CHANNEL_MAP); [|congruence].
  destruct (te_tab_visible env ch) as [[|]|e];
    [destruct (te_raises_at env ch) as [[]|]| |]; reflexivity.
Qed.

Lemma traverse_channel_captured (env : traversal_env) (c ch : string) :
  In (EvCaptured ch) (traverse_channel env c) <->
  c = ch /\ assoc_get c CHANNEL_MAP <> None /\
  te_tab_visible env c = POk true /\
  (te_raises_at env c = None \/ te_raises_at env c = Some StDelayWait).
Proof.
  unfold traverse_channel.
  destruct (assoc_get c CHANNEL_MAP) as [t|];
    [|simpl; split; [intros []|intros (_ & H & _); congruence]].
  destruct (te_tab_visible env c) as [[|]|e];
    [destruct (te_raises_at env c) as [[]|]| |]; simpl;
    (split; [intros H; intuition congruence
            |intros (Hc & _ & Hv & Hk); subst; intuition congruence]).
Qed.

Lemma traverse_channel_failed (env : traversal_env) (c ch : string) :
  In (EvFailed ch) (traverse_channel env c) <->
  c = ch /\ assoc_get c CHANNEL_MAP <> None /\
  ((exists e, te_tab_visible env c = PRaise e) \/
   (te_tab_visible env c = POk true /\ te_raises_at env c <> None)).
Proof.
  unfold traverse_channel.
  destruct (assoc_get c CHANNEL_MAP) as [t|];
    [|simpl; split; [intros []|intros (_ & H & _); congruence]].
  destruct (te_tab_visible env c) as [[|]|e];
    [destruct (te_raises_at env c) as [[]|]| |]; simpl;
    (split; [intros H; intuition (try congruence); eauto
            |intros (Hc & _ & [[e' Hv]|[Hv Hk]]); subst; intuition congruence]).
Qed.

Lemma feed_channels_mapped :
  Forall (fun ch => assoc_get ch CHANNEL_MAP <> None) FEED_CHANNELS.
Proof. repeat constructor; vm_compute; discriminate. Qed.

Lemma traverse_loop_located (env : traversal_env) (l : list string) :
  Forall (fun ch => assoc_get ch CHANNEL_MAP <> None) l ->
  located_channels (flat_map (traverse_channel env) l) = l.
Proof.
  induction l as [|c l IH]; intros Hl; [reflexivity|].
  inversion Hl as [|? ? Hc Hl']; subst. simpl.
  rewrite located_channels_app, traverse_channel_located by exact Hc.
  simpl. f_equal. now apply IH.
Qed.

Lemma feed_channel_mapped (ch : string) :
  In ch FEED_CHANNELS -> assoc_get ch CHANNEL_MAP <> None.
Proof.
  pose proof feed_channels_mapped as Hm. rewrite List.Forall_forall in Hm.
  exact (Hm ch).
Qed.

Lemma traverse_loop_captured (env : traversal_env) (ch : string) :
  In (EvCaptured ch) (flat_map (traverse_channel env) FEED_CHANNELS) <->
  In ch FEED_CHANNELS /\ te_tab_visible env ch = POk true /\
  (te_raises_at env ch = None \/ te_raises_at env ch = Some StDelayWait).
Proof.
  rewrite in_flat_map. split.
  - intros (c & Hc & Hin).
    apply traverse_channel_captured in Hin as (<- & _ & Hv & Hk). auto.
  - intros (Hin & Hv & Hk). exists ch. split; [exact Hin|].
    apply traverse_channel_captured.
    repeat split; try assumption. now apply feed_channel_mapped.
Qed.

Lemma traverse_loop_failed (env : traversal_env) (ch : string) :
  In (EvFailed ch) (flat_map (traverse_channel env) FEED_CHANNELS) <->
  In ch FEED_CHANNELS /\
  ((exists e, te_tab_visible env ch = PRaise e) \/
   (te_tab_visible env ch = POk true /\ te_raises_at env ch <> None)).
Proof.
  rewrite in_flat_map. split.
  - intros (c & Hc & Hin).
    apply traverse_channel_failed in Hin as (<- & _ & H). auto.
  - intros (Hin & H). exists ch. split; [exact Hin|].
    apply traverse_channel_failed.
    repeat split; try assumption. now apply feed_channel_mapped.
Qed.

(** X10.  When the page is already on an explore URL, or the navigation
    to it (the [goto] and the [networkidle] wait, outside any [try])
    returns, [traverse_feed_channels] looks up the tab of every channel of
    [FEED_CHANNELS], in that order (a missing tab or a failing call does
    not stop the loop); it reports a channel as captured exactly when the
    channel is in [FEED_CHANNELS], its tab is visible and no call before
    the final delay raises; and it reports a channel as failed exactly
    when the channel is in [FEED_CHANNELS] and its visibility check
    raises, or its tab is visible and a later call raises (a raise in the
    final delay reports the channel both captured and failed).  It first
    navigates to the explore page exactly when the current URL lacks
    ["/explore"] and the [goto] returns; when the [goto] or the wait after
    it raises, the exception escapes before any tab is looked up. *)
Theorem traverse_feed_channels_coverage (env : traversal_env) :
  let nav_ok := py_in "/explore" (te_page_url env) = true \/
                (te_goto_raises env = None /\ te_idle_raises env = None) in
  (nav_ok -> located_channels (traverse_feed_channels env) = FEED_CHANNELS) /\
  (nav_ok -> forall ch, In (EvCaptured ch) (traverse_feed_channels env) <->
     In ch FEED_CHANNELS /\ te_tab_visible env ch = POk true /\
     (te_raises_at env ch = None \/ te_raises_at env ch = Some StDelayWait)) /\
  (nav_ok -> forall ch, In (EvFailed ch) (traverse_feed_channels env) <->
     In ch FEED_CHANNELS /\
     ((exists e, te_tab_visible env ch = PRaise e) \/
      (te_tab_visible env ch = POk true /\ te_raises_at env ch <> None))) /\
  ((exists rest, traverse_feed_channels env =
                 EvGoto "https://www.xiaohongshu.com/explore" :: rest) <->
   py_in "/explore" (te_page_url env) = false /\ te_goto_raises env = None) /\
  (forall e, py_in "/explore" (te_page_url env) = false ->
     te_goto_raises env = Some e ->
     traverse_feed_channels env = [EvRaise e]) /\
  (forall e, py_in "/explore" (te_page_url env) = false ->
     te_goto_raises env = None -> te_idle_raises env = Some e ->
     traverse_feed_channels env =
       [EvGoto "https://www.xiaohongshu.com/explore"; EvRaise e]).
Proof.
  intros nav_ok.
  assert (Hloop : nav_ok -> exists pre,
            traverse_feed_channels env =
              (pre ++ flat_map (traverse_channel env) FEED_CHANNELS)%list /\
            located_channels pre = [] /\
            (forall ev, In ev pre ->
               ev = EvGoto "https://www.xiaohongshu.com/explore" \/
               ev = EvWaitLoadState "networkidle")).
  { intros [Hu|[Hg Hi]]; unfold traverse_feed_channels.
    - rewrite Hu. exists []. split; [reflexivity|]. split; [reflexivity|].
      intros ev [].
    - destruct (py_in "/explore" (te_page_url env)).
      + exists []. split; [reflexivity|]. split; [reflexivity|]. intros ev [].
      + rewrite Hg, Hi.
        exists [EvGoto "https://www.xiaohongshu.com/explore";
                EvWaitLoadState "networkidle"].
        split; [reflexivity|]. split; [reflexivity|].
        intros ev [<-|[<-|[]]]; auto. }
  split; [|split; [|split; [|split; [|split]]]].
  - intros Hn. destruct (Hloop Hn) as (pre & -> & Hpre & _).
    rewrite located_channels_app, Hpre, traverse_loop_located
      by exact feed_channels_mapped.
    reflexivity.
  - intros Hn ch. destruct (Hloop Hn) as (pre & -> & _ & Hev).
    rewrite in_app_iff, <- traverse_loop_captured. split; [|now right].
    intros [Hp|Hp]; [|exact Hp].
    destruct (Hev _ Hp); discriminate.
  - intros Hn ch. destruct (Hloop Hn) as (pre & -> & _ & Hev).
    rewrite in_app_iff, <- traverse_loop_failed. split; [|now right].
    intros [Hp|Hp]; [|exact Hp].
    destruct (Hev _ Hp); discriminate.
  - unfold traverse_feed_channels.
    destruct (py_in "/explore" (te_page_url env)).
    + split; [|intros [H _]; discriminate]. intros [rest Hr].
      unfold traverse_channel in Hr. simpl in Hr. discriminate.
    + destruct (te_goto_raises env).
      * split; [intros [rest Hr]; discriminate|intros [_ H]; discriminate].
      * split; [intros _; split; reflexivity|]. intros _. eexists. reflexivity.
  - intros e Hu Hg. unfold traverse_feed_channels. now rewrite Hu, Hg.
  - intros e Hu Hg Hi. unfold traverse_feed_channels. now rewrite Hu, Hg, Hi.
Qed.

Lemma traverse_feed_channels_coverage_witness :
  located_channels (traverse_feed_channels silent_feed_env) = FEED_CHANNELS /\
  traverse_feed_channels
    (mk_traversal_env "https://www.xiaohongshu.com/" (Some "net::ERR_ABORTED") None
       (fun _ => POk true) (fun _ => None) (fun _ => false) (fun _ => 1500)) =
  [EvRaise "net::ERR_ABORTED"].
Proof.
  split.
  - exact (proj1 (traverse_feed_channels_coverage silent_feed_env)
             (or_introl eq_refl)).
  - exact (proj1 (proj2 (proj2 (proj2 (proj2
             (traverse_feed_channels_coverage
                (mk_traversal_env "https://www.xiaohongshu.com/"
                   (Some "net::ERR_ABORTED") None (fun _ => POk true)
                   (fun _ => None) (fun _ => false) (fun _ => 1500)))))))
             "net::ERR_ABORTED" eq_refl eq_refl).
Defined.

(** ** [SignatureCapture]: the keys of the signature map *)

Lemma match_endpoint_in (pats : list (string * string)) (r : request) (e : string) :
  match_endpoint pats r = Some e -> In e (map fst pats).
Proof.
  induction pats as [|[e' p] pats IH]; simpl; [discriminate|].
  destruct (_ && _); [intros [= ->]; now left|].
  intros H. right. now apply IH.
Qed.

Lemma match_endpoint_none (pats : list (string * string)) (r : request) :
  (req_headers r !! "x-s" = None \/
   Forall (fun p => py_in p.2 (req_url r) = false) pats) ->
  match_endpoint pats r = None.
Proof.
  intros H. induction pats as [|[e p] pats IH]; [reflexivity|]. simpl.
  destruct H as [H|H].
  - rewrite H. rewrite bool_decide_eq_false_2 by (intros [? ?]; discriminate).
    rewrite andb_false_r. apply IH. now left.
  - inversion H as [|? ? Hp Hps]; subst. simpl in Hp. rewrite Hp. simpl.
    apply IH. now right.
Qed.

Lemma feed_category_endpoint_shape (c : string) :
  home_feed_shaped (feed_category_endpoint c).
Proof.
  unfold home_feed_shaped, feed_category_endpoint.
  destruct (String.eqb c "homefeed_recommend"); [right; now exists "recommend"|].
  destruct (py_in "." c); [|right; eauto].
  destruct (py_split "."%char c) as [|? [|? ?]]; [now left|now left|right; eauto].
Qed.

Lemma home_feed_key_shape (json_loads : string -> option py_json)
    (py_str : py_json -> string) (pd : option string) :
  home_feed_shaped (home_feed_key json_loads py_str pd).
Proof.
  unfold home_feed_key, home_feed_shaped.
  destruct (py_truthy_str pd); [|now left].
  destruct pd as [pd|]; [|now left].
  destruct (json_loads pd) as [[| | | | |kv]|]; try now left.
  destruct (dict_get "category" kv) as [c|]; [|now left].
  destruct (py_json_truthy c); [|now left].
  destruct c as [| | |s|l|kv']; simpl; try now left.
  - apply feed_category_endpoint_shape.
  - destruct (existsb _ l); [now left|right; eauto].
  - destruct (existsb _ kv'); [now left|right; eauto].
Qed.

Lemma storage_key_shape (json_loads : string -> option py_json)
    (py_str : py_json -> string) (r : request) (k : string) :
  storage_key json_loads py_str r = Some k ->
  In k (map fst ENDPOINT_PATTERNS) \/ exists suffix, k = "home_feed_" ++ suffix.
Proof.
  unfold storage_key.
  destruct (match_endpoint ENDPOINT_PATTERNS r) as [e|] eqn:E; [|discriminate].
  intros [= <-]. destruct (String.eqb_spec e "home_feed") as [->|Hne].
  - destruct (home_feed_key_shape json_loads py_str (post_data_of r)) as [->|H].
    + left. simpl. tauto.
    + now right.
  - left. now apply match_endpoint_in in E.
Qed.

(** X11.  Every key of the signature map built by the request handler is
    an endpoint name of [ENDPOINT_PATTERNS] or ["home_feed_"] followed by
    a category suffix: nothing else is ever stored. *)
Theorem signature_keys_shape (json_loads : string -> option py_json)
    (py_str : py_json -> string) (rs : list request) (k : string) :
  is_Some (signatures (observe_all json_loads py_str capture_init rs) !! k) ->
  In k (map fst ENDPOINT_PATTERNS) \/ exists suffix, k = "home_feed_" ++ suffix.
Proof.
  unfold observe_all.
  assert (Hinv : forall rs st,
    (forall k, is_Some (signatures st !! k) ->
       In k (map fst ENDPOINT_PATTERNS) \/ exists suffix, k = "home_feed_" ++ suffix) ->
    forall k, is_Some (signatures (fold_left (handle_request json_loads py_str) rs st) !! k) ->
       In k (map fst ENDPOINT_PATTERNS) \/ exists suffix, k = "home_feed_" ++ suffix).
  { clear rs k. induction rs as [|r rs IH]; intros st Hst; [exact Hst|].
    simpl. apply IH. intros k Hk. unfold handle_request in Hk.
    destruct (storage_key json_loads py_str r) as [k0|] eqn:E; simpl in Hk;
      [|now apply Hst].
    destruct (String.eqb_spec k k0) as [->|Hne].
    - now apply storage_key_shape in E.
    - rewrite lookup_insert_ne in Hk by congruence. now apply Hst. }
  apply Hinv. intros k' Hk'. simpl in Hk'. rewrite lookup_empty in Hk'.
  destruct Hk'; discriminate.
Qed.

Lemma signature_keys_shape_witness :
  is_Some (signatures (observe_all json_loads_example py_str_example capture_init
                         [feed_request "POST" (Some "fashion-body")]) !! "home_feed_fashion") /\
  (In "home_feed_fashion" (map fst ENDPOINT_PATTERNS) \/
   exists suffix, "home_feed_fashion" = "home_feed_" ++ suffix).
Proof.
  assert (H : is_Some (signatures (observe_all json_loads_example py_str_example capture_init
                         [feed_request "POST" (Some "fashion-body")]) !! "home_feed_fashion")).
  { apply (bool_decide_unpack _). vm_compute. reflexivity. }
  split; [exact H|].
  exact (signature_keys_shape json_loads_example py_str_example
           [feed_request "POST" (Some "fashion-body")] "home_feed_fashion" H).
Defined.

(** X12.  A request without an ["x-s"] header, or whose URL contains none
    of the [ENDPOINT_PATTERNS], leaves the signature map unchanged; the
    longest-[x-s-common] tracking still looks at its headers. *)
Theorem handle_request_unmatched (json_loads : string -> option py_json)
    (py_str : py_json -> string) (st : capture) (r : request) :
  (req_headers r !! "x-s" = None \/
   Forall (fun p => py_in p.2 (req_url r) = false) ENDPOINT_PATTERNS) ->
  signatures (handle_request json_loads py_str st r) = signatures st /\
  x_s_common (handle_request json_loads py_str st r) =
    update_x_s_common (x_s_common st) (req_headers r).
Proof.
  intros H. unfold handle_request, storage_key.
  rewrite (match_endpoint_none ENDPOINT_PATTERNS r H). split; reflexivity.
Qed.

Lemma handle_request_unmatched_witness :
  let r := mk_request feed_url (<["x-s-common" := "2UQAPsHC"]> ∅) "POST"
             (Some "fashion-body") in
  signatures (handle_request json_loads_example py_str_example capture_init r) =
    signatures capture_init /\
  x_s_common (handle_request json_loads_example py_str_example capture_init r) =
    update_x_s_common (x_s_common capture_init) (req_headers r).
Proof.
  intros r. apply handle_request_unmatched. left. reflexivity.
Defined.

(** ** [save_all_signatures]: the returned list and the collection *)

Lemma save_fold_saved (now : Z) :
  forall (l : list (string * sig_bundle)) (coll : gmap string sig_doc) saved,
  (fold_left (fun acc kv =>
      (save_signature acc.1 kv.1 kv.2 now, (acc.2 ++ [kv.1])%list))
    l (coll, saved)).2 = (saved ++ l.*1)%list.
Proof.
  induction l as [|[k0 b0] l IH]; intros coll saved; simpl.
  - now rewrite app_nil_r.
  - rewrite IH, <- app_assoc. reflexivity.
Qed.

Lemma save_all_signatures_saved (coll : gmap string sig_doc) (st : capture)
    (now : Z) :
  NoDup (save_all_signatures coll st now).2 /\
  (forall k, In k (save_all_signatures coll st now).2 <->
             is_Some (signatures st !! k)).
Proof.
  assert (Hs : (save_all_signatures coll st now).2 = (map_to_list (signatures st)).*1).
  { unfold save_all_signatures. rewrite save_fold_saved. reflexivity. }
  split.
  - rewrite Hs. apply NoDup_fst_map_to_list.
  - intros k. rewrite Hs. split.
    + intros Hin. apply list_elem_of_In in Hin.
      apply list_elem_of_fmap in Hin as ([k' b] & -> & Hkb).
      apply elem_of_map_to_list in Hkb. simpl. eauto.
    + intros [b Hb]. apply list_elem_of_In. apply list_elem_of_fmap.
      exists (k, b). split; [reflexivity|]. now apply elem_of_map_to_list.
Qed.

(** X13.  [save_all_signatures] returns each captured endpoint exactly
    once (no duplicates, and an endpoint is listed iff the signature map
    has it), and afterwards the [api_signatures] collection holds, for
    each captured endpoint, a valid document built from its bundle, while
    documents of other endpoints are left as they were. *)
Theorem save_all_signatures_spec (coll : gmap string sig_doc) (st : capture)
    (now : Z) :
  NoDup (save_all_signatures coll st now).2 /\
  (forall k, In k (save_all_signatures coll st now).2 <->
             is_Some (signatures st !! k)) /\
  (forall k, (save_all_signatures coll st now).1 !! k =
     match signatures st !! k with
     | Some b => Some (mk_sig_doc k (sb_x_s b) (sb_x_t b) (sb_x_s_common b)
                         (sb_x_b3_traceid b) (sb_x_xray_traceid b) (sb_method b)
                         (sb_post_body b) now true)
     | None => coll !! k
     end).
Proof.
  destruct (save_all_signatures_saved coll st now) as [Hnd Hin].
  split; [exact Hnd|]. split; [exact Hin|].
  intros k. rewrite save_all_signatures_lookup. reflexivity.
Qed.

(** ** [trigger_signature_pages]: the search-box loop *)

Lemma search_loop_clicked (env : search_env) (sels : list string) :
  (search_loop env sels).2 = true <->
  exists s, In s sels /\ se_visible env s = POk true /\ se_click_captured env s = true.
Proof.
  induction sels as [|sel sels IH]; simpl.
  - split; [discriminate|]. intros (s & [] & _).
  - destruct (se_visible env sel) as [[|]|e] eqn:Hv;
      [destruct (se_click_captured env sel) eqn:Hc| |];
      try (destruct (search_loop env sels) as [t c]; simpl in *);
      [split; [intros _; exists sel; auto|reflexivity]| | |].
    all: rewrite IH; split; [intros (s & Hs & H1 & H2); exists s; auto|].
    all: intros (s & [<-|Hs] & H1 & H2); [congruence|eauto].
Qed.

Lemma search_loop_guarded (env : search_env) (sels : list string) :
  forall pre s post, (search_loop env sels).1 = (pre ++ SClick s :: post)%list ->
  exists pre', pre = (pre' ++ [SExpectResponse s])%list.
Proof.
  induction sels as [|sel sels IH]; intros pre s post H; simpl in H.
  - destruct pre; discriminate.
  - destruct (se_visible env sel) as [[|]|e];
      [destruct (se_click_captured env sel)| |].
    + destruct pre as [|a [|b [|c pre]]]; simpl in H; try discriminate.
      * injection H as Ha Hb Hs Hp. subst. now exists [SLocate s].
      * injection H as Ha Hb Hc H. destruct pre as [|d pre]; [discriminate|].
        destruct pre; discriminate.
    + destruct (search_loop env sels) as [t c0] eqn:E. simpl in H.
      destruct pre as [|a [|b [|c pre]]]; simpl in H; try discriminate.
      * injection H as Ha Hb Hs Hp. subst. now exists [SLocate s].
      * injection H as Ha Hb Hc H.
        destruct (IH pre s post) as [pre' ->]; [exact H|].
        now exists (a :: b :: c :: pre').
    + destruct (search_loop env sels) as [t c0] eqn:E. simpl in H.
      destruct pre as [|a pre]; simpl in H; [discriminate|].
      injection H as Ha H.
      destruct (IH pre s post) as [pre' ->]; [exact H|].
      now exists (a :: pre').
    + destruct (search_loop env sels) as [t c0] eqn:E. simpl in H.
      destruct pre as [|a pre]; simpl in H; [discriminate|].
      injection H as Ha H.
      destruct (IH pre s post) as [pre' ->]; [exact H|].
      now exists (a :: pre').
Qed.

Lemma search_loop_prefix (env : search_env) (sels : list string) :
  exists rest, sels = (searched_selectors (search_loop env sels).1 ++ rest)%list /\
    ((search_loop env sels).2 = false -> rest = []).
Proof.
  induction sels as [|sel sels IH]; simpl.
  - exists []. auto.
  - destruct IH as (rest & Hr & Hf).
    destruct (se_visible env sel) as [[|]|e];
      [destruct (se_click_captured env sel)| |].
    + exists sels. simpl. split; [reflexivity|discriminate].
    + destruct (search_loop env sels) as [t c0]. simpl in *.
      exists rest. split; [now f_equal|exact Hf].
    + destruct (search_loop env sels) as [t c0]. simpl in *.
      exists rest. split; [now f_equal|exact Hf].
    + destruct (search_loop env sels) as [t c0]. simpl in *.
      exists rest. split; [now f_equal|exact Hf].
Qed.

Lemma search_loop_first (env : search_env) (sels : list string) :
  (search_loop env sels).2 = true ->
  exists pre s,
    searched_selectors (search_loop env sels).1 = (pre ++ [s])%list /\
    se_visible env s = POk true /\ se_click_captured env s = true /\
    Forall (fun p => ~ (se_visible env p = POk true /\
                        se_click_captured env p = true)) pre /\
    exists t, (search_loop env sels).1 = (t ++ [SClick s; SCaptured])%list.
Proof.
  induction sels as [|sel sels IH]; simpl; [discriminate|].
  destruct (se_visible env sel) as [[|]|e] eqn:Hv;
    [destruct (se_click_captured env sel) eqn:Hc| |].
  - intros _. exists [], sel. simpl.
    split; [reflexivity|]. split; [exact Hv|]. split; [exact Hc|].
    split; [constructor|]. now exists [SLocate sel; SExpectResponse sel].
  - destruct (search_loop env sels) as [t c]. simpl in *. intros Ht.
    destruct (IH Ht) as (pre & s & Hs & H1 & H2 & Hpre & t' & Ht').
    exists (sel :: pre), s. simpl. rewrite Hs.
    split; [reflexivity|]. split; [exact H1|]. split; [exact H2|].
    split; [constructor; [intros [_ H]; congruence|exact Hpre]|].
    exists (SLocate sel :: SExpectResponse sel :: SClick sel :: t').
    rewrite Ht'. reflexivity.
  - destruct (search_loop env sels) as [t c]. simpl in *. intros Ht.
    destruct (IH Ht) as (pre & s & Hs & H1 & H2 & Hpre & t' & Ht').
    exists (sel :: pre), s. simpl. rewrite Hs.
    split; [reflexivity|]. split; [exact H1|]. split; [exact H2|].
    split; [constructor; [intros [H _]; congruence|exact Hpre]|].
    exists (SLocate sel :: t'). rewrite Ht'. reflexivity.
  - destruct (search_loop env sels) as [t c]. simpl in *. intros Ht.
    destruct (IH Ht) as (pre & s & Hs & H1 & H2 & Hpre & t' & Ht').
    exists (sel :: pre), s. simpl. rewrite Hs.
    split; [reflexivity|]. split; [exact H1|]. split; [exact H2|].
    split; [constructor; [intros [H _]; congruence|exact Hpre]|].
    exists (SLocate sel :: t'). rewrite Ht'. reflexivity.
Qed.

(** X14.  In [trigger_signature_pages] the search boxes are looked up in
    the order of [search_selectors], stopping at the first one whose click
    yields a [querytrending] response (all are tried otherwise); every
    click is immediately preceded by registering the response listener
    for that selector; and [clicked] ends true exactly when some selector
    is visible and its click yields the response.  When [clicked] ends
    true, the selectors looked up are [pre ++ [s]] with [s] visible and
    captured and no selector of [pre] both visible and captured (the loop
    breaks at the first success), and the trace ends with the click on
    [s] and its capture. *)
Theorem trigger_signature_pages_search (env : search_env) :
  ((search_loop env search_selectors).2 = true <->
   exists s, In s search_selectors /\ se_visible env s = POk true /\
             se_click_captured env s = true) /\
  (forall pre s post, (search_loop env search_selectors).1 = (pre ++ SClick s :: post)%list ->
   exists pre', pre = (pre' ++ [SExpectResponse s])%list) /\
  (exists rest, search_selectors =
     (searched_selectors (search_loop env search_selectors).1 ++ rest)%list /\
     ((search_loop env search_selectors).2 = false -> rest = [])) /\
  ((search_loop env search_selectors).2 = true ->
   exists pre s,
     searched_selectors (search_loop env search_selectors).1 = (pre ++ [s])%list /\
     se_visible env s = POk true /\ se_click_captured env s = true /\
     Forall (fun p => ~ (se_visible env p = POk true /\
                         se_click_captured env p = true)) pre /\
     exists t, (search_loop env search_selectors).1 =
               (t ++ [SClick s; SCaptured])%list).
Proof.
  split; [apply search_loop_clicked|]. split; [|split].
  - apply search_loop_guarded.
  - apply search_loop_prefix.
  - apply search_loop_first.
Qed.

(** ** [run_full_login] *)

Lemma observe_all_app (json_loads : string -> option py_json)
    (py_str : py_json -> string) (st : capture) (rs1 rs2 : list request) :
  observe_all json_loads py_str st (rs1 ++ rs2) =
  observe_all json_loads py_str (observe_all json_loads py_str st rs1) rs2.
Proof. unfold observe_all. apply fold_left_app. Qed.

(** X15.  [run_full_login] touches neither collection when navigation,
    QR extraction or the login wait fails (it returns [success] false with
    no user id and no signatures), and an exception raised by one of the
    browser steps (navigation, QR extraction, login wait, final wait)
    leaves [api_signatures] untouched.  On success: no error; the [credentials]
    collection has exactly one valid document, whose user id is the one
    returned and whose [x_s_common] is the longest one seen before the
    login completed (not one captured afterwards); and the returned
    endpoints are, without duplicates, the keys captured over the whole
    session. *)
Theorem run_full_login_spec (json_loads : string -> option py_json)
    (py_str : py_json -> string) (fe : full_login_env)
    (creds : list cred_doc) (sigs : gmap string sig_doc) :
  match run_full_login json_loads py_str fe creds sigs with
  | FullReturned res creds' sigs' =>
      if fl_success res then
        fl_error res = None /\
        (exists d, List.filter cd_is_valid creds' = [d] /\
           fl_user_id res = Some (cd_user_id d) /\
           cd_x_s_common d =
             x_s_common (observe_all json_loads py_str capture_init
                           (fe_requests_login fe))) /\
        NoDup (fl_signatures res) /\
        (forall k, In k (fl_signatures res) <->
           is_Some (signatures (observe_all json_loads py_str capture_init
                      (fe_requests_login fe ++ fe_requests_capture fe)) !! k))
      else creds' = creds /\ sigs' = sigs /\ fl_user_id res = None /\
           fl_signatures res = []
  | FullRaised _ _ sigs' => sigs' = sigs
  end.
Proof.
  unfold run_full_login.
  destruct (fe_nav fe) as [[|]|e]; [|repeat split|reflexivity].
  destruct (extract_from_page (fe_backends fe) (fe_qr_page fe)) as [qr n w|a e];
    [|reflexivity].
  destruct (qr_success qr); cbn [negb fl_success]; [|repeat split].
  destruct (wait_for_login_complete (fe_login fe) LOGIN_TIMEOUT_SECONDS) as [lr el|e];
    [|reflexivity].
  destruct (lr_success lr); cbn [negb fl_success]; [|repeat split].
  destruct (fe_final_wait fe) as [e|]; [reflexivity|].
  destruct (save_all_signatures sigs
              (observe_all json_loads py_str
                 (observe_all json_loads py_str capture_init (fe_requests_login fe))
                 (fe_requests_capture fe)) (fe_now fe)) as [sigs' saved] eqn:Hsave.
  simpl.
  pose proof (save_all_signatures_saved sigs
              (observe_all json_loads py_str
                 (observe_all json_loads py_str capture_init (fe_requests_login fe))
                 (fe_requests_capture fe)) (fe_now fe)) as [Hnd Hin].
  rewrite Hsave in Hnd, Hin. simpl in Hnd, Hin.
  split; [reflexivity|]. split; [|split; [exact Hnd|]].
  - eexists. split.
    + rewrite List.filter_app, invalidate_all_none_valid. reflexivity.
    + split; reflexivity.
  - intros k. rewrite observe_all_app. apply Hin.
Qed.

(** ** [base64_to_ascii]: the rendered grid *)

Lemma concat_empty_cons (x : string) (l : list string) :
  String.concat "" (x :: l) = x ++ String.concat "" l.
Proof.
  destruct l; simpl; [symmetry; apply append_empty_r|reflexivity].
Qed.

Lemma render_row_cons (b : bool) (row : list bool) :
  render_row (b :: row) = (if b then "█" else " ") ++ render_row row.
Proof. unfold render_row. simpl map. apply concat_empty_cons. Qed.

Lemma parse_render_row (row : list bool) : parse_row (render_row row) = row.
Proof.
  induction row as [|b row IH]; [reflexivity|].
  rewrite render_row_cons. destruct b; simpl; now rewrite IH.
Qed.

Lemma render_row_no_newline (row : list bool) :
  py_in newline (render_row row) = false.
Proof.
  unfold newline. induction row as [|b row IH]; [reflexivity|].
  rewrite render_row_cons. destruct b; simpl String.append;
    rewrite !py_in_single_cons; exact IH.
Qed.

Lemma py_split_concat_newline (ls : list string) :
  ls <> [] -> Forall (fun x => py_in newline x = false) ls ->
  py_split (ascii_of_nat 10) (String.concat newline ls) = ls.
Proof.
  induction ls as [|x ls IH]; intros Hne Hf; [congruence|].
  inversion Hf as [|? ? Hx Hls]; subst.
  destruct ls as [|y ls].
  - simpl. now apply py_split_no_sep.
  - change (String.concat newline (x :: y :: ls))
      with (x ++ String (ascii_of_nat 10) (String.concat newline (y :: ls))).
    rewrite py_split_no_sep_app by exact Hx.
    f_equal. apply IH; [discriminate|exact Hls].
Qed.

Lemma parse_render_matrix (m : list (list bool)) :
  m <> [] -> parse_matrix (render_matrix m) = m.
Proof.
  intros Hne. unfold parse_matrix.
  change (render_matrix m) with (String.concat newline (map render_row m)).
  rewrite py_split_concat_newline.
  - rewrite map_map. rewrite (map_ext _ id) by apply parse_render_row.
    apply map_id.
  - destruct m; [congruence|discriminate].
  - apply List.Forall_forall. intros x Hx. apply in_map_iff in Hx as (row & <- & _).
    apply render_row_no_newline.
Qed.

(** X16.  The ASCII rendering of a QR module matrix loses nothing: two
    non-empty matrices with the same rendering are equal (each row is a
    line, each module one glyph).  The one collision is the empty matrix,
    which renders like a single empty row. *)
Theorem render_matrix_injective :
  (forall m1 m2 : list (list bool), m1 <> [] -> m2 <> [] ->
     render_matrix m1 = render_matrix m2 -> m1 = m2) /\
  render_matrix [] = render_matrix [[]].
Proof.
  split; [|reflexivity].
  intros m1 m2 H1 H2 Heq.
  rewrite <- (parse_render_matrix m1 H1), <- (parse_render_matrix m2 H2).
  now rewrite Heq.
Qed.
